(** * watchtower.commits_: cache reader, incremental updater, query-word matcher

    A shallow embedding of [watchtower/commits_.py].  Paths, field names
    and messages are strings; the text the matcher searches is a list of
    Unicode code points; integers are [Z], exceptions an explicit outcome
    type, and the file system and standard output a [World] threaded
    through every effectful call. *)

From Stdlib Require Import ZArith Ascii Bool Lia.
From stdpp Require Import base option list gmap strings.

Local Open Scope Z_scope.

(** ** Strings *)

Module Str.

(** [s.startswith(p)] *)
Fixpoint startswith (s p : string) {struct p} : bool :=
  match p, s with
  | EmptyString, _ => true
  | String _ _, EmptyString => false
  | String a p', String b s' => if decide (a = b) then startswith s' p' else false
  end.

(** [s.endswith(p)]: some tail of [s] is [p]. *)
Fixpoint endswith (s p : string) : bool :=
  bool_decide (s = p) ||
  match s with
  | EmptyString => false
  | String _ s' => endswith s' p
  end.

(** [needle in hay] *)
Fixpoint contains (hay needle : string) : bool :=
  startswith hay needle ||
  match hay with
  | EmptyString => false
  | String _ hay' => contains hay' needle
  end.

End Str.

(** ** Text *)

Module Text.

(** The text of a string literal, one code point for each character. *)
Fixpoint of_string (s : string) : list N :=
  match s with
  | EmptyString => []
  | String c t => N_of_ascii c :: of_string t
  end.

(** [s.startswith(p)] *)
Fixpoint startswith (s p : list N) {struct p} : bool :=
  match p, s with
  | [], _ => true
  | _ :: _, [] => false
  | a :: p', b :: s' => (a =? b)%N && startswith s' p'
  end.

(** [needle in hay] *)
Fixpoint contains (hay needle : list N) : bool :=
  startswith hay needle ||
  match hay with
  | [] => false
  | _ :: hay' => contains hay' needle
  end.

(** The lower case of an ASCII character: "A".."Z" move down by 32. *)
Definition ascii_lower (c : N) : N :=
  if ((65 <=? c) && (c <=? 90))%N then (c + 32)%N else c.

Section Unicode.

(** The Unicode character data [str.lower()] consults: the full lower-case
    mapping of a character outside ASCII (one to three code points), and
    the properties Cased and Case_Ignorable. *)
Variable tolower_full : N → list N.
Variable is_cased : N → bool.
Variable is_case_ignorable : N → bool.

Fixpoint skip_ignorable (s : list N) : list N :=
  match s with
  | [] => []
  | c :: s' => if is_case_ignorable c then skip_ignorable s' else s
  end.

(** Whether a capital sigma stands at the end of a word: a cased letter
    before it, case-ignorable characters apart, and none after it.
    [before] lists the characters before the sigma, the nearest first. *)
Definition final_sigma (before after : list N) : bool :=
  match skip_ignorable before with
  | [] => false
  | c :: _ =>
      is_cased c &&
      match skip_ignorable after with
      | [] => true
      | c' :: _ => negb (is_cased c')
      end
  end.

(** The lower case of the character [c] between [before] and [after]. *)
Definition lower_at (before : list N) (c : N) (after : list N) : list N :=
  if (c =? 931)%N then [if final_sigma before after then 962%N else 963%N]
  else if (c <? 128)%N then [ascii_lower c]
  else tolower_full c.

Fixpoint lower_from (before s : list N) : list N :=
  match s with
  | [] => []
  | c :: after => lower_at before c after ++ lower_from (c :: before) after
  end.

(** [s.lower()] *)
Definition lower (s : list N) : list N := lower_from [] s.

End Unicode.

End Text.

(** ** [find_word_in_string] *)

(** The [queries] argument: [None], one string, or a list of strings. *)
Inductive queries_arg :=
  | QNone
  | QStr (s : list N)
  | QList (l : list (list N)).

Section Matcher.

Variable tolower_full : N → list N.
Variable is_cased : N → bool.
Variable is_case_ignorable : N → bool.

Definition str_lower : list N → list N :=
  Text.lower tolower_full is_cased is_case_ignorable.

Definition find_word_in_string (string_ : list N) (queries : queries_arg) : bool :=
  let queries := match queries with QNone => QStr (Text.of_string "doc") | q => q end in
  let queries := match queries with QStr s => [s] | QList l => l | QNone => [] end in
  let in_string :=
    foldl (fun in_string word =>
             if Text.contains (str_lower string_) (str_lower word)
             then in_string + 1 else in_string) 0 queries in
  0 <? in_string.

End Matcher.

(** The words the matcher is asked about. *)
Definition query_words (queries : queries_arg) : list (list N) :=
  match queries with
  | QNone => [Text.of_string "doc"]
  | QStr s => [s]
  | QList l => l
  end.

(** Two characters that are the same letter of "A".."Z", "a".."z" in either
    case, or the same character. *)
Definition same_letter (a b : N) : Prop :=
  a = b ∨ ((65 ≤ a ≤ 90)%N ∧ b = (a + 32)%N) ∨ ((65 ≤ b ≤ 90)%N ∧ a = (b + 32)%N).

(** [word] occurs in [text] up to the case of its letters: a slice of [text]
    agrees with [word] letter by letter. *)
Definition occurs_ci (word text : list N) : Prop :=
  ∃ pre mid post, text = pre ++ mid ++ post ∧ Forall2 same_letter mid word.

(** A text of ASCII characters. *)
Definition is_ascii (s : list N) : Prop := Forall (fun c => (c < 128)%N) s.

(** ** Paths *)

(** [posixpath.join(a, *p)] *)
Definition join (a : string) (p : list string) : string :=
  foldl (fun path b =>
           if Str.startswith b "/" then b
           else if bool_decide (path = "") || Str.endswith path "/" then path +:+ b
           else path +:+ "/" +:+ b) a p.

(** [posixpath.dirname(p)]: the text before the last "/", with trailing
    separators removed unless nothing else is left. *)
Fixpoint cut_last_sep (p : string) : string :=
  match p with
  | EmptyString => EmptyString
  | String c t =>
      if Str.contains t "/" then String c (cut_last_sep t)
      else if bool_decide (c = "/"%char) then "/" else ""
  end.

Fixpoint rstrip_sep (s : string) : string :=
  match s with
  | EmptyString => EmptyString
  | String c t =>
      let t' := rstrip_sep t in
      if bool_decide (c = "/"%char) && bool_decide (t' = "") then "" else String c t'
  end.

Definition dirname (p : string) : string :=
  let head := cut_last_sep p in
  if bool_decide (rstrip_sep head = "") then head else rstrip_sep head.

(** ** Values, exceptions, the world *)

Inductive zone := UTC | US_Pacific.

(** A pandas [Timestamp]: an instant on the UTC time line and the zone it is
    displayed in; [tz = None] is a naive timestamp. *)
Record Timestamp := { instant : Z; tz : option zone }.

(** A cell of a frame, or a value inside a fetched record. *)
#[local] Set Warnings "-register-all".
Inductive value :=
  | VNaN
  | VStr (s : string)
  | VNum (n : Z)
  | VTime (t : Timestamp)
  | VDict (kvs : list (string * value))
  | VList (vs : list value).

(** A fetched record: a Python [dict] from field name to value. *)
Abbreviation record := (list (string * value)).

Inductive exn :=
  | ValueError (msg : string)
  | KeyError (key : string)
  | TypeError (msg : string)
  | OSError (errno : Z)
  | Exception (msg : string).

Inductive outcome (A : Type) :=
  | Return (a : A)
  | Raise (e : exn).
Arguments Return {A} a.
Arguments Raise {A} e.

Definition obind {A B} (o : outcome A) (k : A → outcome B) : outcome B :=
  match o with
  | Return a => k a
  | Raise e => Raise e
  end.

Fixpoint omap {A B} (f : A → outcome B) (l : list A) : outcome (list B) :=
  match l with
  | [] => Return []
  | a :: l' => obind (f a) (fun b => obind (omap f l') (fun bs => Return (b :: bs)))
  end.

(** [record.get(k)] / [record[k]] on the first binding of [k]. *)
Fixpoint dict_get {V} (k : string) (d : list (string * V)) : option V :=
  match d with
  | [] => None
  | (k', v) :: d' => if decide (k = k') then Some v else dict_get k d'
  end.

(** [v[k]]: subscripting a value with a string key. *)
Definition subscript (v : value) (k : string) : outcome value :=
  match v with
  | VDict kvs =>
      match dict_get k kvs with
      | Some x => Return x
      | None => Raise (KeyError k)
      end
  | VStr _ => Raise (TypeError "string indices must be integers")
  | VList _ => Raise (TypeError "list indices must be integers or slices, not str")
  | _ => Raise (TypeError "object is not subscriptable")
  end.

(** ** Frames *)

Record DataFrame := { columns : list string; rows : list (list value) }.

Module Pd.

Fixpoint index_of (c : string) (cols : list string) : option nat :=
  match cols with
  | [] => None
  | c' :: cols' => if decide (c = c') then Some O else S <$> index_of c cols'
  end.

(** The cell of [row] under label [c]; a missing cell reads as NaN. *)
Definition cell (cols : list string) (c : string) (row : list value) : value :=
  match index_of c cols with
  | Some i => nth i row VNaN
  | None => VNaN
  end.

(** Labels in order of first appearance. *)
Definition add_col (acc : list string) (c : string) : list string :=
  if decide (c ∈ acc) then acc else acc ++ [c].

Definition union_cols (colss : list (list string)) : list string :=
  foldl (foldl add_col) [] colss.

Definition reindex (cols cols' : list string) (row : list value) : list value :=
  (fun c => cell cols c row) <$> cols'.

(** [pd.DataFrame(records)] *)
Definition DataFrame_of (raw : list record) : DataFrame :=
  let cols := union_cols ((fun d : record => fst <$> d) <$> raw) in
  {| columns := cols;
     rows := (fun d : record => (fun c => default VNaN (dict_get c d)) <$> cols) <$> raw |}.

(** [len(df)] *)
Definition len (df : DataFrame) : Z := Z.of_nat (length (rows df)).

(** [df[c].values] *)
Definition getitem (df : DataFrame) (c : string) : outcome (list value) :=
  match index_of c (columns df) with
  | Some i => Return ((fun r => nth i r VNaN) <$> rows df)
  | None => Raise (KeyError c)
  end.

Fixpoint set_nth (i : nat) (v : value) (row : list value) : list value :=
  match i, row with
  | O, [] => [v]
  | O, _ :: row' => v :: row'
  | S i', [] => VNaN :: set_nth i' v []
  | S i', x :: row' => x :: set_nth i' v row'
  end.

(** [df[c] = vals] *)
Definition setitem (df : DataFrame) (c : string) (vals : list value) : outcome DataFrame :=
  if negb (length vals =? length (rows df))%nat
  then Raise (ValueError "Length of values does not match length of index")
  else
    match index_of c (columns df) with
    | Some i =>
        Return {| columns := columns df;
                  rows := zip_with (fun r v => set_nth i v r) (rows df) vals |}
    | None =>
        Return {| columns := columns df ++ [c];
                  rows := zip_with (fun r v => set_nth (length (columns df)) v r)
                            (rows df) vals |}
    end.

(** [df.rename(columns=mapping)] *)
Definition rename (df : DataFrame) (mapping : list (string * string)) : DataFrame :=
  {| columns := (fun c => default c (dict_get c mapping)) <$> columns df;
     rows := rows df |}.

(** [pd.concat(objs, ignore_index=True)]: the union of the labels, every
    row re-read under it. *)
Definition concat (objs : list DataFrame) : DataFrame :=
  let cols := union_cols (columns <$> objs) in
  {| columns := cols;
     rows := objs ≫= (fun df => reindex (columns df) cols <$> rows df) |}.

(** Equality of two [Timestamp]s: the same instant, both zoned or both naive. *)
Definition timestamp_eqb (a b : Timestamp) : bool :=
  match tz a, tz b with
  | Some _, Some _ | None, None => instant a =? instant b
  | _, _ => false
  end.

(** Equality of two cells as the duplicate detection sees them: equal
    strings, equal numbers, timestamps of one instant; a string and a
    timestamp are never equal. *)
Definition key_eqb (a b : value) : bool :=
  match a, b with
  | VNaN, VNaN => true
  | VStr s, VStr t => bool_decide (s = t)
  | VNum n, VNum m => n =? m
  | VTime s, VTime t => timestamp_eqb s t
  | _, _ => false
  end.

Definition hashable (v : value) : bool :=
  match v with
  | VDict _ | VList _ => false
  | _ => true
  end.

(** Keep a row when its key was not seen before. *)
Fixpoint keep_first (key : list value → value) (seen : list value)
    (rs : list (list value)) : list (list value) :=
  match rs with
  | [] => []
  | r :: rs' =>
      if existsb (key_eqb (key r)) seen then keep_first key seen rs'
      else r :: keep_first key (key r :: seen) rs'
  end.

(** [df.drop_duplicates(subset=[c])], keep='first'. *)
Definition drop_duplicates (df : DataFrame) (c : string) : outcome DataFrame :=
  match index_of c (columns df) with
  | None => Raise (KeyError c)
  | Some _ =>
      if forallb (fun r => hashable (cell (columns df) c r)) (rows df)
      then Return {| columns := columns df;
                     rows := keep_first (cell (columns df) c) [] (rows df) |}
      else Raise (TypeError "unhashable type")
  end.

(** [pd.to_datetime(values).tz_localize(zone)] on one element. *)
Definition tz_localize (z : zone) (t : Timestamp) : outcome Timestamp :=
  match tz t with
  | None => Return {| instant := instant t; tz := Some z |}
  | Some _ => Raise (TypeError "Already tz-aware, use tz_convert to convert.")
  end.

(** [.tz_convert(zone)] on one element. *)
Definition tz_convert (z : zone) (t : Timestamp) : outcome Timestamp :=
  match tz t with
  | Some _ => Return {| instant := instant t; tz := Some z |}
  | None => Raise (TypeError "Cannot convert tz-naive timestamps, use tz_localize to localize")
  end.

End Pd.

(** The content of a file: a frame written by [to_json] under a date format,
    or bytes that are no JSON document, with what the parser says of them. *)
Inductive file :=
  | Stored (date_format : string) (df : DataFrame)
  | Unparsable (bytes : string) (complaint : string).

Record World := {
  files : gmap string file;
  dirs : gset string;
  stdout : list string
}.

(** ** Effects: a computation reads and changes the world and returns or raises. *)

Definition M (A : Type) : Type := World → outcome A * World.

Definition ret {A} (a : A) : M A := fun w => (Return a, w).
Definition raise {A} (e : exn) : M A := fun w => (Raise e, w).
Definition lift {A} (o : outcome A) : M A := fun w => (o, w).

Definition bind {A B} (m : M A) (k : A → M B) : M B :=
  fun w =>
    match m w with
    | (Return a, w') => k a w'
    | (Raise e, w') => (Raise e, w')
    end.

Notation "x <- m ;; k" := (bind m (fun x => k))
  (at level 100, m at next level, right associativity).
Notation "m ;;; k" := (bind m (fun _ => k))
  (at level 100, right associativity).

(** [try: body  except <handled>: handler] *)
Definition try_except {A} (body : M A) (handler : exn → option (M A)) : M A :=
  fun w =>
    match body w with
    | (Return a, w') => (Return a, w')
    | (Raise e, w') =>
        match handler e with
        | Some h => h w'
        | None => (Raise e, w')
        end
    end.

(** [print(msg)] *)
Definition print (msg : string) : M unit :=
  fun w => (Return tt, {| files := files w; dirs := dirs w; stdout := stdout w ++ [msg] |}).

(** Modelled from the spec: the class [ProjectCommits] of
    [watchtower.handlers_], which is not part of the sources at hand: "a
    wrapped handle that also carries owner/project identity".  The object
    holds the three constructor arguments. *)
Record ProjectCommits := {
  pc_user : string;
  pc_project : option string;
  pc_commits : DataFrame
}.

(** What [load_commits] and [update_commits] return: [None], a frame, or a
    handler object. *)
Inductive loaded :=
  | NoData
  | Commits (df : DataFrame)
  | Handler (h : ProjectCommits).

Section Watchtower.

(** *** Collaborators

    [get_data_home], [get_API_token] and [DATETIME_FORMAT] come from
    [watchtower._config], [colon_seperated_pair] and [get_frames] from
    [watchtower._github_api]; the spec describes them as a path resolver, a
    credential lookup and an authenticated pager, none of which touches the
    cache.  [to_datetime] is pandas' date parser on one cell, [read_back]
    what [pd.read_json] makes of a frame stored under a date format, and
    [os_makedirs] the operating system's [os.makedirs]. *)
Variable get_data_home : option string → string.
Variable get_API_token : option string → outcome string.
Variable DATETIME_FORMAT : string.
Variable colon_seperated_pair : string → outcome (string * string).
Variable get_frames :
  string * string → string → option string → Z → Z → record → outcome (list record).
Variable to_datetime : value → outcome Timestamp.
Variable read_back : string → DataFrame → outcome DataFrame.
Variable os_makedirs : string → M unit.

(** [pd.read_json(filepath)]: a path that names no file is a
    [FileNotFoundError], the [OSError] of errno 2; a file that is no JSON
    document is a [ValueError] with the parser's complaint. *)
Definition read_json (filepath : string) : M DataFrame :=
  fun w =>
    match files w !! filepath with
    | Some (Stored date_format df) => (read_back date_format df, w)
    | Some (Unparsable _ complaint) => (Raise (ValueError complaint), w)
    | None => (Raise (OSError 2), w)
    end.

(** [df.to_json(filename, date_format=...)]: the file is opened for writing,
    which needs its directory. *)
Definition to_json (df : DataFrame) (filename date_format : string) : M unit :=
  fun w =>
    if bool_decide (dirname filename ∈ dirs w)
    then (Return tt,
          {| files := <[filename := Stored date_format df]> (files w);
             dirs := dirs w; stdout := stdout w |})
    else (Raise (OSError 2), w).

(** *** [load_commits] *)

(** Lines 38-45: the file the reader opens. *)
Definition load_commits_filepath (user : string) (project data_home branch : option string)
    : string :=
  let data_home := get_data_home data_home in
  match project, branch with
  | None, _ => join data_home ["users"; user; "activity.json"]
  | Some project, None => join data_home ["projects"; user; project; "commits.json"]
  | Some project, Some branch =>
      join data_home ["projects"; user; project; "branches"; branch; "commits.json"]
  end.

(** Lines 47-52: the body of the [try]. *)
Definition load_commits_try (filepath : string) : M DataFrame :=
  commits <- read_json filepath ;;
  dates <- lift (Pd.getitem commits "date") ;;
  dates <- lift (obind (omap to_datetime dates) (fun idx =>
                 obind (omap (Pd.tz_localize UTC) idx) (fun idx =>
                 omap (Pd.tz_convert US_Pacific) idx))) ;;
  commits <- lift (Pd.setitem commits "date" (VTime <$> dates)) ;;
  if Pd.len commits =? 0
  then raise (ValueError "No commits for this project")
  else ret commits.

Definition load_commits (user : string) (project data_home : option string)
    (use_handler : bool) (branch : option string) : M loaded :=
  let filepath := load_commits_filepath user project data_home branch in
  r <- try_except (commits <- load_commits_try filepath ;; ret (Some commits))
         (fun e => match e with
                   | ValueError msg => Some (print msg ;;; ret None)
                   | _ => None
                   end) ;;
  match r with
  | None => ret NoData
  | Some commits =>
      if negb use_handler then ret (Commits commits)
      else ret (Handler {| pc_user := user; pc_project := project; pc_commits := commits |})
  end.

(** *** [update_commits] *)

Definition api_root : string := "https://api.github.com/".

(** Lines 100-112: the endpoint asked. *)
Definition update_commits_url (user : string) (project branch : option string) : string :=
  match project, branch with
  | None, _ => api_root +:+ "users/" +:+ user +:+ "/events"
  | Some project, None => api_root +:+ "repos/" +:+ user +:+ "/" +:+ project +:+ "/commits"
  | Some project, Some branch =>
      api_root +:+ "repos/" +:+ user +:+ "/" +:+ project +:+ "/commits?sha=" +:+ branch
  end.

(** Lines 96 and 100-112: the file the updater writes. *)
Definition update_commits_filename (user : string) (project data_home branch : option string)
    : string :=
  let path := get_data_home data_home in
  match project, branch with
  | None, _ => join path ["users"; user; "activity.json"]
  | Some project, None => join path ["projects"; user; project; "commits.json"]
  | Some project, Some branch =>
      join path ["projects"; user; project; "branches"; branch; "commits.json"]
  end.

(** Lines 124-128: every record gets its "date". *)
Definition update_commits_dates (project : option string) (raw : DataFrame)
    : outcome DataFrame :=
  match project with
  | None => Return (Pd.rename raw [("created_at", "date")])
  | Some _ =>
      obind (Pd.getitem raw "commit") (fun commit =>
      obind (omap (fun ii => obind (subscript ii "author") (fun a => subscript a "date"))
               commit) (fun dates =>
      Pd.setitem raw "date" dates))
  end.

(** Lines 133-135: the fresh frame first, the cached one after it, then the
    first row of every date is kept. *)
Definition update_commits_merge (raw : DataFrame) (old_raw : loaded) : outcome DataFrame :=
  match old_raw with
  | NoData => Return raw
  | Commits old_raw => Pd.drop_duplicates (Pd.concat [raw; old_raw]) "date"
  | Handler _ => Raise (TypeError "cannot concatenate object of type ProjectCommits")
  end.

Definition update_commits (user : string) (project auth since : option string)
    (max_pages per_page : Z) (data_home branch : option string) (params : record)
    : M loaded :=
  auth <- lift (match auth with None => get_API_token auth | Some a => Return a end) ;;
  auth <- lift (colon_seperated_pair auth) ;;
  let url := update_commits_url user project branch in
  let filename := update_commits_filename user project data_home branch in
  raw <- lift (get_frames auth url since max_pages per_page params) ;;
  let raw := Pd.DataFrame_of raw in
  if Pd.len raw =? 0
  then print "No activity found" ;;; ret NoData
  else
    raw <- lift (update_commits_dates project raw) ;;
    old_raw <- load_commits user project data_home false branch ;;
    raw <- lift (update_commits_merge raw old_raw) ;;
    try_except (os_makedirs (dirname filename))
      (fun e => match e with OSError _ => Some (ret tt) | _ => None end) ;;;
    to_json raw filename DATETIME_FORMAT ;;;
    load_commits user project data_home false branch.

End Watchtower.

(** ** Vocabulary of the properties *)

(** A name that can stand as one path component: not empty, no separator. *)
Definition valid_name (s : string) : bool :=
  negb (bool_decide (s = "")) && negb (Str.contains s "/").

(** A data root that is a directory name: not empty, no trailing separator. *)
Definition valid_root (s : string) : bool :=
  negb (bool_decide (s = "")) && negb (Str.endswith s "/").


Section Causes.

Variable to_datetime : value → outcome Timestamp.
Variable read_back : string → DataFrame → outcome DataFrame.

(** Why a cache at [filepath] holds no data, with the notice that is
    printed: the file is no JSON document, reading it fails with a
    [ValueError], a date does not parse, or the frame has its "date" column
    and no row. *)
Inductive no_data_cause (w : World) (filepath : string) : string → Prop :=
  | malformed_file bytes complaint :
      files w !! filepath = Some (Unparsable bytes complaint) →
      no_data_cause w filepath complaint
  | unreadable_file date_format stored msg :
      files w !! filepath = Some (Stored date_format stored) →
      read_back date_format stored = Raise (ValueError msg) →
      no_data_cause w filepath msg
  | bad_timestamp date_format stored df cells msg :
      files w !! filepath = Some (Stored date_format stored) →
      read_back date_format stored = Return df →
      Pd.getitem df "date" = Return cells →
      omap to_datetime cells = Raise (ValueError msg) →
      no_data_cause w filepath msg
  | zero_records date_format stored df :
      files w !! filepath = Some (Stored date_format stored) →
      read_back date_format stored = Return df →
      "date" ∈ columns df →
      rows df = [] →
      no_data_cause w filepath "No commits for this project".

End Causes.

(** The timestamp shown in the Pacific zone. *)
Definition in_pacific (t : Timestamp) : Timestamp :=
  {| instant := instant t; tz := Some US_Pacific |}.

(** The timestamp read as UTC. *)
Definition as_utc (t : Timestamp) : Timestamp :=
  {| instant := instant t; tz := Some UTC |}.

(** The author date nested in a commit record: [d["commit"]["author"]["date"]]. *)
Definition author_date (d : record) : option value :=
  match dict_get "commit" d with
  | Some (VDict commit) =>
      match dict_get "author" commit with
      | Some (VDict author) => dict_get "date" author
      | _ => None
      end
  | _ => None
  end.

(** The date the updater gives a fetched record. *)
Definition canonical_date (project : option string) (d : record) : value :=
  match project with
  | None => default VNaN (dict_get "created_at" d)
  | Some _ => default VNaN (author_date d)
  end.

(** ** A concrete setting

    One instance of the collaborators, and small worlds, on which the
    functions above can be run. *)

Module Demo.

Definition get_data_home (data_home : option string) : string :=
  default "/home/acme/watchtower_data" data_home.

Definition get_API_token (auth : option string) : outcome string :=
  Return "acme:s3cret".

Definition DATETIME_FORMAT : string := "%Y-%m-%dT%H:%M:%SZ".

Fixpoint split_colon (s : string) : option (string * string) :=
  match s with
  | EmptyString => None
  | String c t =>
      if bool_decide (c = ":"%char) then Some ("", t)
      else '(a, b) ← split_colon t; Some (String c a, b)
  end.

Definition colon_seperated_pair (auth : string) : outcome (string * string) :=
  match split_colon auth with
  | Some p => Return p
  | None => Raise (ValueError "not enough values to unpack")
  end.

(** A pager that answers every request with [recs]. *)
Definition pager (recs : list record)
    (auth : string * string) (url : string) (since : option string)
    (max_pages per_page : Z) (params : record) : outcome (list record) :=
  Return recs.

(** The dates this parser knows, as seconds since the epoch. *)
Definition calendar : list (string * Z) :=
  [("2017-01-01T00:00:00Z", 1483228800);
   ("2017-01-02T00:00:00Z", 1483315200);
   ("2017-01-03T00:00:00Z", 1483401600)].

Definition to_datetime (v : value) : outcome Timestamp :=
  match v with
  | VNum n => Return {| instant := n; tz := None |}
  | VTime t => Return {| instant := instant t; tz := None |}
  | VStr s =>
      match dict_get s calendar with
      | Some n => Return {| instant := n; tz := None |}
      | None => Raise (ValueError "Unknown string format")
      end
  | _ => Raise (TypeError "not convertible to datetime")
  end.

Definition read_back (date_format : string) (df : DataFrame) : outcome DataFrame :=
  Return df.

(** A directory is made unless it is there already. *)
Definition makedirs (name : string) : M unit :=
  fun w =>
    if bool_decide (name ∈ dirs w) then (Raise (OSError 17), w)
    else (Return tt, {| files := files w; dirs := {[name]} ∪ dirs w; stdout := stdout w |}).

(** A file system that refuses every new directory. *)
Definition makedirs_denied (name : string) : M unit :=
  fun w => (Raise (OSError 13), w).

Definition load_commits :=
  load_commits get_data_home to_datetime read_back.

Definition update_commits (recs : list record) (mk : string → M unit) :=
  update_commits get_data_home get_API_token DATETIME_FORMAT colon_seperated_pair
    (pager recs) to_datetime read_back mk.

Definition empty_world : World := {| files := ∅; dirs := ∅; stdout := [] |}.

Definition activity_json : string := "/home/acme/watchtower_data/users/acme/activity.json".

(** A world whose only file is acme's activity cache. *)
Definition cached (f : file) : World :=
  {| files := {[activity_json := f]};
     dirs := {["/home/acme/watchtower_data/users/acme"]};
     stdout := [] |}.

(** An activity event as the pager returns it. *)
Definition event (id : string) (created_at : value) : record :=
  [("id", VStr id); ("created_at", created_at)].

(** A commit as the pager returns it. *)
Definition commit (sha : string) (date : value) : record :=
  [("sha", VStr sha);
   ("commit", VDict [("author", VDict [("name", VStr "acme"); ("date", date)]);
                     ("message", VStr "fix")])].

(** Two events of the same second. *)
Definition same_second : list record :=
  [event "push-1" (VStr "2017-01-02T00:00:00Z");
   event "push-2" (VStr "2017-01-02T00:00:00Z")].

(** A cache of one event, of the first second of 2017. *)
Definition old_cache : DataFrame :=
  {| columns := ["id"; "date"];
     rows := [[VStr "cached"; VStr "2017-01-01T00:00:00Z"]] |}.

(** A fresh event of that very second, as the pager spells it. *)
Definition fresh_event : record :=
  event "fresh" (VStr "2017-01-01T00:00:00Z").

(** A frame with its "date" column and no row. *)
Definition no_rows : DataFrame := {| columns := ["id"; "date"]; rows := [] |}.

(** A file that is no JSON document. *)
Definition garbage : file := Unparsable "<html>" "Expected object or value".

(** A frame without a "date" column. *)
Definition no_date : DataFrame :=
  {| columns := ["sha"; "message"];
     rows := [[VStr "1a2b3c"; VStr "initial commit"]] |}.

(** The part of the Unicode data the examples need: capital letters of
    Latin-1 and of the Greek alphabet are 32 below their small letters;
    letters are cased; the apostrophe, the full stop, the colon and a few
    marks are case-ignorable. *)
Definition tolower_full (c : N) : list N :=
  if ((192 <=? c) && (c <=? 214) || (216 <=? c) && (c <=? 222) ||
      (913 <=? c) && (c <=? 929) || (932 <=? c) && (c <=? 939))%N
  then [(c + 32)%N] else [c].

Definition is_cased (c : N) : bool :=
  ((65 <=? c) && (c <=? 90) || (97 <=? c) && (c <=? 122) ||
   (192 <=? c) && (c <=? 214) || (216 <=? c) && (c <=? 246) ||
   (248 <=? c) && (c <=? 255) ||
   (913 <=? c) && (c <=? 929) || (931 <=? c) && (c <=? 939) ||
   (945 <=? c) && (c <=? 969))%N.

Definition is_case_ignorable (c : N) : bool :=
  bool_decide (c ∈ [39; 46; 58; 94; 96; 168; 173; 175; 180; 183; 184]%N).

Definition find_word_in_string :=
  find_word_in_string tolower_full is_cased is_case_ignorable.

End Demo.

(** A pager whose every request fails. *)
Definition pager_down (auth : string * string) (url : string) (since : option string)
    (max_pages per_page : Z) (params : record) : outcome (list record) :=
  Raise (Exception "connection refused").

(** The updater of the concrete setting, behind that pager. *)
Definition update_commits_offline :=
  update_commits Demo.get_data_home Demo.get_API_token Demo.DATETIME_FORMAT
    Demo.colon_seperated_pair pager_down Demo.to_datetime Demo.read_back Demo.makedirs.

(** * Properties *)

(** ** Strings *)

Module StrFacts.
Import Str.

Lemma app_cons (c : ascii) (s t : string) :
  String c s +:+ t = String c (s +:+ t).
Proof. reflexivity. Qed.

Lemma app_nil_l (t : string) : "" +:+ t = t.
Proof. reflexivity. Qed.

Lemma app_nil_r (s : string) : s +:+ "" = s.
Proof. induction s as [|c s IH]; [done|]. by rewrite app_cons, IH. Qed.

Lemma app_assoc (s t u : string) : (s +:+ t) +:+ u = s +:+ t +:+ u.
Proof. induction s as [|c s IH]; [done|]. by rewrite !app_cons, IH. Qed.

Lemma startswith_spec (s p : string) :
  startswith s p = true ↔ ∃ post, s = p +:+ post.
Proof.
  revert s. induction p as [|a p IH]; intros s; cbn.
  - split; [intros _; by exists s | done].
  - destruct s as [|b s]; cbn.
    + split; [done | intros [post H]; discriminate H].
    + case_decide as Hab.
      * subst b. rewrite IH. split; intros [post H]; exists post.
        -- by rewrite app_cons, H.
        -- rewrite app_cons in H. by injection H.
      * split; [done | intros [post H]]. rewrite app_cons in H.
        injection H as H1 _. congruence.
Qed.

Lemma contains_spec (hay needle : string) :
  contains hay needle = true ↔ ∃ pre post, hay = pre +:+ needle +:+ post.
Proof.
  induction hay as [|c hay IH]; cbn -[startswith].
  - rewrite orb_false_r, startswith_spec. split.
    + intros [post H]. by exists "", post.
    + intros [[|a pre] [post H]]; [by exists post | discriminate H].
  - rewrite orb_true_iff, startswith_spec, IH. split.
    + intros [[post H] | (pre & post & H)].
      * by exists "", post.
      * exists (String c pre), post. by rewrite app_cons, H.
    + intros ([|a pre] & post & H).
      * left. by exists post.
      * right. rewrite app_cons in H. injection H as _ H. by exists pre, post.
Qed.

End StrFacts.

(** ** Text *)

Module TextFacts.
Import Text.

Lemma text_startswith_spec (s p : list N) :
  startswith s p = true ↔ ∃ post, s = p ++ post.
Proof.
  revert s. induction p as [|a p IH]; intros s; cbn.
  - split; [intros _; by exists s | done].
  - destruct s as [|b s].
    + split; [done | by intros [post H]].
    + rewrite andb_true_iff, N.eqb_eq, IH. split.
      * intros [-> [post ->]]. by exists post.
      * intros [post [= -> ->]]. split; [done | by exists post].
Qed.

Lemma text_contains_spec (hay needle : list N) :
  contains hay needle = true ↔ ∃ pre post, hay = pre ++ needle ++ post.
Proof.
  induction hay as [|c hay IH]; cbn -[startswith].
  - rewrite orb_false_r, text_startswith_spec. split.
    + intros [post H]. by exists [], post.
    + intros [[|a pre] [post H]]; [by exists post | discriminate H].
  - rewrite orb_true_iff, text_startswith_spec, IH. split.
    + intros [[post H] | (pre & post & H)].
      * by exists [], post.
      * exists (c :: pre), post. by rewrite H.
    + intros ([|a pre] & post & H).
      * left. by exists post.
      * right. injection H as _ H. by exists pre, post.
Qed.

Lemma ascii_lower_eq (a b : N) :
  ascii_lower a = ascii_lower b ↔ same_letter a b.
Proof.
  unfold ascii_lower, same_letter.
  destruct (65 <=? a)%N eqn:Ha1, (a <=? 90)%N eqn:Ha2,
           (65 <=? b)%N eqn:Hb1, (b <=? 90)%N eqn:Hb2; cbn;
    rewrite ?N.leb_le, ?N.leb_gt in *; lia.
Qed.

Lemma ascii_lower_fmap_eq (s t : list N) :
  ascii_lower <$> s = ascii_lower <$> t ↔ Forall2 same_letter s t.
Proof.
  revert t. induction s as [|a s IH]; intros [|b t]; cbn.
  - split; [constructor | done].
  - split; [done | by intros ?%Forall2_nil_cons_inv].
  - split; [done | by intros ?%Forall2_cons_nil_inv].
  - rewrite Forall2_cons, <- IH, <- ascii_lower_eq. split.
    + by intros [= -> ->].
    + by intros [-> ->].
Qed.

Section Unicode.

Context (tolower_full : N → list N) (is_cased is_case_ignorable : N → bool).

(** On ASCII text [lower] works letter by letter, whatever surrounds it. *)
Lemma lower_from_ascii (before s : list N) :
  is_ascii s →
  lower_from tolower_full is_cased is_case_ignorable before s = ascii_lower <$> s.
Proof.
  intros Hs. revert before. induction Hs as [|c s Hc _ IH]; intros before; [done|].
  cbn. rewrite IH. unfold lower_at.
  assert ((c =? 931)%N = false) as -> by (apply N.eqb_neq; lia).
  by rewrite (proj2 (N.ltb_lt _ _) Hc).
Qed.

Lemma lower_ascii (s : list N) :
  is_ascii s → lower tolower_full is_cased is_case_ignorable s = ascii_lower <$> s.
Proof. apply lower_from_ascii. Qed.

End Unicode.

Lemma is_ascii_app (s t : list N) : is_ascii (s ++ t) ↔ is_ascii s ∧ is_ascii t.
Proof. apply Forall_app. Qed.

End TextFacts.

(** ** The query-word matcher *)

Section MatcherFacts.
Import Text TextFacts.

(** The counter of the loop is the start value plus the number of hits. *)
Lemma count_hits_ge (hit : list N → bool) (queries : list (list N)) (n : Z) :
  n ≤ foldl (fun in_string word => if hit word then in_string + 1 else in_string)
        n queries.
Proof.
  revert n. induction queries as [|q queries IH]; intros n; cbn; [lia|].
  destruct (hit q); [specialize (IH (n + 1)) | specialize (IH n)]; lia.
Qed.

Lemma count_hits_pos (hit : list N → bool) (queries : list (list N)) (n : Z) :
  0 ≤ n →
  0 < foldl (fun in_string word => if hit word then in_string + 1 else in_string)
        n queries ↔
  0 < n ∨ ∃ word, word ∈ queries ∧ hit word = true.
Proof.
  revert n. induction queries as [|q queries IH]; intros n Hn; cbn.
  - split; [auto | intros [?|(w & Hw & _)]; [done | by apply elem_of_nil in Hw]].
  - destruct (hit q) eqn:Hq.
    + split.
      * intros _. right. exists q. split; [apply list_elem_of_here | done].
      * intros _. pose proof (count_hits_ge hit queries (n + 1)). lia.
    + rewrite (IH n Hn). split.
      * intros [?|(w & Hw & Hc)]; [by left | right; exists w].
        split; [by apply list_elem_of_further | done].
      * intros [?|(w & Hw & Hc)]; [by left | right; exists w].
        apply elem_of_cons in Hw as [->|Hw]; [congruence | done].
Qed.

Context (tolower_full : N → list N) (is_cased is_case_ignorable : N → bool).

Local Abbreviation lower := (str_lower tolower_full is_cased is_case_ignorable).
Local Abbreviation find := (find_word_in_string tolower_full is_cased is_case_ignorable).

(** The answer of the matcher is that of a search through the words. *)
Lemma find_word_in_string_exists (text : list N) (queries : queries_arg) :
  find text queries = true ↔
  ∃ word, word ∈ query_words queries ∧ contains (lower text) (lower word) = true.
Proof.
  assert (∀ l, (0 <? foldl (fun in_string word =>
                 if contains (lower text) (lower word)
                 then in_string + 1 else in_string) 0 l) = true ↔
               ∃ word, word ∈ l ∧ contains (lower text) (lower word) = true) as Hl.
  { intros l. rewrite Z.ltb_lt.
    rewrite (count_hits_pos (fun word => contains (lower text) (lower word))) by lia.
    split; [intros [?|?]; [lia | done] | by right]. }
  destruct queries as [|s|l]; apply Hl.
Qed.

(** Between ASCII texts, finding the lowered word in the lowered text is
    finding the word up to the case of its letters. *)
Lemma contains_lower_occurs (text word : list N) :
  is_ascii text → is_ascii word →
  contains (lower text) (lower word) = true ↔ occurs_ci word text.
Proof.
  intros Htext Hword. unfold str_lower.
  rewrite !lower_ascii by done. rewrite text_contains_spec. unfold occurs_ci. split.
  - intros (pre & post & H).
    apply fmap_app_inv in H as (s1 & s23 & _ & H & ->).
    symmetry in H. apply fmap_app_inv in H as (s2 & s3 & H2 & _ & ->).
    exists s1, s2, s3. split; [done|]. by apply ascii_lower_fmap_eq.
  - intros (pre & mid & post & -> & H).
    exists (ascii_lower <$> pre), (ascii_lower <$> post).
    apply ascii_lower_fmap_eq in H. by rewrite !fmap_app, H.
Qed.

(** C9, as the code has it: the matcher answers true exactly when the lower
    case of one of the query words (of the single word "doc" when none is
    given) is found in the lower case of the text; for ASCII text and words
    that is the word occurring in the text up to the case of its letters.
    "Updated the docs" matches the default word and matches neither "foo"
    nor "bar"; "Updated the DOCS" matches "Doc". *)
Theorem find_word_in_string_iff :
  (∀ text queries,
     find_word_in_string tolower_full is_cased is_case_ignorable text queries = true ↔
     ∃ word, word ∈ query_words queries ∧
             ∃ pre post, lower text = pre ++ lower word ++ post) ∧
  (∀ text queries,
     is_ascii text → Forall is_ascii (query_words queries) →
     (find_word_in_string tolower_full is_cased is_case_ignorable text queries = true ↔
      ∃ word, word ∈ query_words queries ∧ occurs_ci word text)) ∧
  find (of_string "Updated the docs") QNone = true ∧
  find (of_string "Updated the docs") (QList [of_string "foo"; of_string "bar"]) = false ∧
  find (of_string "Updated the DOCS") (QStr (of_string "Doc")) = true.
Proof.
  split; [|split; [|repeat split; reflexivity]].
  - intros text queries. rewrite find_word_in_string_exists.
    split; intros (w & Hw & Hc); exists w; (split; [done|]); by apply text_contains_spec.
  - intros text queries Htext Hwords. rewrite find_word_in_string_exists.
    rewrite Forall_forall in Hwords.
    split; intros (w & Hw & Hc); exists w; (split; [done|]);
      by apply (contains_lower_occurs text w Htext (Hwords w Hw)).
Qed.

End MatcherFacts.

(** ** Cache locations *)

Section Paths.
Import Str StrFacts.

Lemma contains_of_startswith (s p : string) :
  startswith s p = true → contains s p = true.
Proof. intros H. destruct s; cbn -[startswith]; by rewrite H. Qed.

Lemma contains_of_endswith (s p : string) :
  endswith s p = true → contains s p = true.
Proof.
  intros H. apply contains_spec. induction s as [|c s IH]; cbn in H.
  - rewrite orb_false_r in H. apply bool_decide_eq_true in H as <-. by exists "", "".
  - apply orb_true_iff in H as [H|H].
    + apply bool_decide_eq_true in H as <-. exists "", "". by rewrite app_nil_r.
    + destruct (IH H) as (pre & post & ->). by exists (String c pre), post.
Qed.

Lemma str_app_eq_nil (a b : string) : a +:+ b = "" → b = "".
Proof. destruct a; [done | discriminate]. Qed.

Lemma endswith_sep_app (a b : string) :
  b ≠ "" → endswith (a +:+ b) "/" = endswith b "/".
Proof.
  intros Hb. induction a as [|c a IH]; [done|].
  rewrite app_cons. cbn [endswith]. rewrite IH.
  rewrite bool_decide_eq_false_2; [done|].
  intros [= _ H]. by apply str_app_eq_nil in H.
Qed.

Lemma valid_name_startswith (b : string) :
  valid_name b = true → startswith b "/" = false.
Proof.
  unfold valid_name. intros [_ H]%andb_true_iff. apply negb_true_iff in H.
  destruct (startswith b "/") eqn:E; [|done].
  apply contains_of_startswith in E. congruence.
Qed.

(** One round of the loop of [join] below a directory name. *)
Lemma join_step (path b : string) :
  valid_root path = true → valid_name b = true →
  join path [b] = path +:+ "/" +:+ b ∧ valid_root (path +:+ "/" +:+ b) = true.
Proof.
  intros Hp Hb. pose proof (valid_name_startswith b Hb) as Hs.
  unfold valid_root in Hp. apply andb_true_iff in Hp as [Hp1 Hp2].
  apply negb_true_iff in Hp1, Hp2. apply bool_decide_eq_false in Hp1.
  unfold valid_name in Hb. apply andb_true_iff in Hb as [Hb1 Hb2].
  apply negb_true_iff in Hb1, Hb2. apply bool_decide_eq_false in Hb1.
  split.
  - unfold join. cbn [foldl]. rewrite Hs, Hp2.
    by rewrite bool_decide_eq_false_2.
  - unfold valid_root. apply andb_true_iff. split; apply negb_true_iff.
    + apply bool_decide_eq_false. intros H. apply str_app_eq_nil in H. discriminate H.
    + rewrite endswith_sep_app by discriminate.
      change ("/" +:+ b) with (String "/" "" +:+ b).
      rewrite endswith_sep_app by done.
      destruct (endswith b "/") eqn:E; [|done].
      apply contains_of_endswith in E. congruence.
Qed.

Lemma join_cons (path b : string) (rest : list string) :
  join path (b :: rest) = join (join path [b]) rest.
Proof. reflexivity. Qed.

Lemma join_nil (path : string) : join path [] = path.
Proof. reflexivity. Qed.

Ltac join_steps :=
  repeat (rewrite join_cons;
          match goal with
          | |- context [join ?p [?b]] =>
              let H1 := fresh in let H2 := fresh in
              destruct (join_step p b) as [H1 H2]; [done | done |];
              rewrite H1; clear H1
          end);
  rewrite join_nil.

(** C3: for a data root that is a directory name and names that are path
    components, the reader and the updater resolve the same file, and its
    shape is decided by which of project and branch are absent. *)
Theorem cache_location_shapes (get_data_home : option string → string)
    (user : string) (project data_home branch : option string) :
  valid_root (get_data_home data_home) = true →
  valid_name user = true →
  (∀ p, project = Some p → valid_name p = true) →
  (∀ b, branch = Some b → valid_name b = true) →
  load_commits_filepath get_data_home user project data_home branch =
    update_commits_filename get_data_home user project data_home branch ∧
  update_commits_filename get_data_home user project data_home branch =
    match project, branch with
    | None, _ =>
        get_data_home data_home +:+ "/users/" +:+ user +:+ "/activity.json"
    | Some project, None =>
        get_data_home data_home +:+ "/projects/" +:+ user +:+ "/" +:+ project
          +:+ "/commits.json"
    | Some project, Some branch =>
        get_data_home data_home +:+ "/projects/" +:+ user +:+ "/" +:+ project
          +:+ "/branches/" +:+ branch +:+ "/commits.json"
    end.
Proof.
  intros Hroot Huser Hproject Hbranch. split; [reflexivity|].
  unfold update_commits_filename. cbv zeta.
  set (root := get_data_home data_home) in *.
  destruct project as [p|]; [destruct branch as [b|]|].
  - specialize (Hproject p eq_refl). specialize (Hbranch b eq_refl).
    join_steps. by rewrite !app_assoc.
  - specialize (Hproject p eq_refl). join_steps. by rewrite !app_assoc.
  - join_steps. by rewrite !app_assoc.
Qed.

End Paths.


(** ** Frames *)

Module PdFacts.
Import Pd.
#[local] Set Warnings "-clear-no-such-hyp".

Lemma timestamp_eqb_sym (a b : Timestamp) : timestamp_eqb a b = timestamp_eqb b a.
Proof. unfold timestamp_eqb. destruct (tz a), (tz b); try done; apply Z.eqb_sym. Qed.


Lemma key_eqb_sym (a b : value) : key_eqb a b = key_eqb b a.
Proof.
  destruct a, b; cbn; try done.
  - apply bool_decide_ext. naive_solver.
  - apply Z.eqb_sym.
  - apply timestamp_eqb_sym.
Qed.


Lemma key_eqb_refl (a : value) : hashable a = true → key_eqb a a = true.
Proof.
  destruct a; cbn; try done; intros _.
  - by apply bool_decide_eq_true.
  - apply Z.eqb_refl.
  - unfold timestamp_eqb. destruct (tz t); apply Z.eqb_refl.
Qed.





End PdFacts.

Module FrameFacts.
Import Pd PdFacts.
#[local] Set Warnings "-clear-no-such-hyp".

Lemma index_of_lookup (c : string) (cols : list string) (i : nat) :
  index_of c cols = Some i → cols !! i = Some c.
Proof.
  revert i. induction cols as [|c' cols IH]; intros i; cbn; [done|].
  case_decide as Hc; [by intros [= <-]; subst|].
  destruct (index_of c cols) eqn:E; cbn; [|done]. intros [= <-]. by apply IH.
Qed.

Lemma index_of_elem (c : string) (cols : list string) :
  c ∈ cols ↔ is_Some (index_of c cols).
Proof.
  induction cols as [|c' cols IH]; cbn.
  - split; [by intros ?%elem_of_nil | by intros []].
  - case_decide as Hc.
    + subst. split; [by eexists | intros _; apply list_elem_of_here].
    + rewrite elem_of_cons, IH, fmap_is_Some. naive_solver.
Qed.

Lemma index_of_app_new (c : string) (cols : list string) :
  c ∉ cols → index_of c (cols ++ [c]) = Some (length cols).
Proof.
  induction cols as [|c' cols IH]; cbn; intros Hc.
  - by rewrite decide_True.
  - apply not_elem_of_cons in Hc as [Hne Hc]. rewrite decide_False by done.
    by rewrite IH.
Qed.

Lemma add_col_elem (acc : list string) (c x : string) :
  x ∈ add_col acc c ↔ x ∈ acc ∨ x = c.
Proof.
  unfold add_col. case_decide as Hc.
  - split; [by left | intros [?| ->]; done].
  - rewrite elem_of_app, list_elem_of_singleton. done.
Qed.

Lemma add_cols_elem (acc cols : list string) (x : string) :
  x ∈ foldl add_col acc cols ↔ x ∈ acc ∨ x ∈ cols.
Proof.
  revert acc. induction cols as [|c cols IH]; intros acc; cbn.
  - split; [by left | intros [?|?%elem_of_nil]; done].
  - rewrite IH, add_col_elem, elem_of_cons. naive_solver.
Qed.

Lemma union_cols_elem_acc (acc : list string) (colss : list (list string)) (x : string) :
  x ∈ foldl (foldl add_col) acc colss ↔ x ∈ acc ∨ ∃ cols, cols ∈ colss ∧ x ∈ cols.
Proof.
  revert acc. induction colss as [|cols colss IH]; intros acc; cbn.
  - split; [by left | intros [?|(? & ?%elem_of_nil & _)]; done].
  - rewrite IH, add_cols_elem. split.
    + intros [[?|?]|(cs & ? & ?)]; [by left | right | right].
      * exists cols. split; [apply list_elem_of_here | done].
      * exists cs. split; [by apply list_elem_of_further | done].
    + intros [?|(cs & [->|?]%elem_of_cons & ?)]; [by left; left | by left; right |].
      right. by exists cs.
Qed.

Lemma union_cols_elem (colss : list (list string)) (x : string) :
  x ∈ union_cols colss ↔ ∃ cols, cols ∈ colss ∧ x ∈ cols.
Proof.
  unfold union_cols. rewrite union_cols_elem_acc. split; [|by right].
  by intros [?%elem_of_nil|?].
Qed.

(** A row re-read under more labels still shows its cells. *)
Lemma cell_reindex (cols cols' : list string) (c : string) (row : list value) :
  c ∈ cols' → cell cols' c (reindex cols cols' row) = cell cols c row.
Proof.
  intros [i Hi]%index_of_elem. unfold cell at 1. rewrite Hi.
  apply index_of_lookup in Hi. unfold reindex.
  apply nth_lookup_Some with (d := VNaN). by rewrite list_lookup_fmap, Hi.
Qed.

Lemma getitem_cells (df : DataFrame) (c : string) (cells : list value) :
  getitem df c = Return cells → cells = cell (columns df) c <$> rows df.
Proof.
  unfold getitem, cell. destruct (index_of c (columns df)); [|done]. by intros [= <-].
Qed.

Lemma getitem_elem (df : DataFrame) (c : string) :
  c ∈ columns df → getitem df c = Return (cell (columns df) c <$> rows df).
Proof.
  intros [i Hi]%index_of_elem. unfold getitem, cell. by rewrite Hi.
Qed.



(** What [drop_duplicates] returns. *)
Lemma drop_duplicates_Return (df out : DataFrame) (c : string) :
  drop_duplicates df c = Return out →
  c ∈ columns df ∧
  (∀ r, r ∈ rows df → hashable (cell (columns df) c r) = true) ∧
  columns out = columns df ∧
  rows out = keep_first (cell (columns df) c) [] (rows df).
Proof.
  unfold drop_duplicates. destruct (index_of c (columns df)) eqn:Hi; [|done].
  destruct (forallb _ _) eqn:Hall; [|done]. intros [= <-]. cbn.
  split; [apply index_of_elem; by eexists|]. split; [|done].
  intros r Hr. rewrite forallb_forall in Hall. by apply Hall, list_elem_of_In.
Qed.

Lemma nth_set_nth (i : nat) (v : value) (r : list value) :
  nth i (set_nth i v r) VNaN = v.
Proof. revert r. induction i as [|i IH]; intros [|x r]; cbn; auto. Qed.

(** A column that was just set reads back as the values given. *)
Lemma getitem_setitem (df out : DataFrame) (c : string) (vals : list value) :
  setitem df c vals = Return out →
  c ∈ columns out ∧ getitem out c = Return vals.
Proof.
  unfold setitem. destruct (length vals =? length (rows df))%nat eqn:Hl; [|done].
  apply Nat.eqb_eq in Hl. cbn.
  assert (∀ i, (fun r => nth i r VNaN) <$>
               zip_with (fun r v => set_nth i v r) (rows df) vals = vals) as Hcol.
  { intros i. apply list_eq. intros n. rewrite list_lookup_fmap, lookup_zip_with.
    destruct (rows df !! n) as [r|] eqn:Hrn; cbn.
    - destruct (vals !! n) as [v|] eqn:Hvn; cbn.
      + by rewrite nth_set_nth.
      + apply lookup_ge_None in Hvn. apply lookup_lt_Some in Hrn. lia.
    - symmetry. apply lookup_ge_None. apply lookup_ge_None in Hrn. lia. }
  destruct (index_of c (columns df)) as [i|] eqn:Hi; intros [= <-]; cbn.
  - split; [apply index_of_elem; by eexists|].
    unfold getitem. cbn. by rewrite Hi, Hcol.
  - assert (c ∉ columns df) as Hc.
    { intros [? ?]%index_of_elem. congruence. }
    split; [apply elem_of_app; right; apply list_elem_of_here|].
    unfold getitem. cbn. by rewrite index_of_app_new, Hcol.
Qed.

Lemma dict_get_elem {V} (k : string) (d : list (string * V)) :
  is_Some (dict_get k d) ↔ k ∈ d.*1.
Proof.
  induction d as [|[k' v] d IH]; cbn.
  - split; [by intros [] | by intros ?%elem_of_nil].
  - case_decide as Hk.
    + subst. split; [intros _; apply list_elem_of_here | by eexists].
    + rewrite IH, elem_of_cons. naive_solver.
Qed.

(** The labels of a frame of records are the field names met. *)
Lemma DataFrame_of_columns (recs : list record) (c : string) :
  c ∈ columns (DataFrame_of recs) ↔ ∃ d, d ∈ recs ∧ is_Some (dict_get c d).
Proof.
  cbn. rewrite union_cols_elem. split.
  - intros (cols & (d & -> & Hd)%list_elem_of_fmap & Hc).
    exists d. by rewrite dict_get_elem.
  - intros (d & Hd & Hc). exists (d.*1). rewrite <- dict_get_elem.
    split; [|done]. apply list_elem_of_fmap. by exists d.
Qed.

(** A column of a frame of records holds the field of every record, NaN
    where a record has none. *)
Lemma DataFrame_of_getitem (recs : list record) (c : string) :
  c ∈ columns (DataFrame_of recs) →
  getitem (DataFrame_of recs) c = Return ((fun d => default VNaN (dict_get c d)) <$> recs).
Proof.
  intros [i Hi]%index_of_elem. unfold getitem. rewrite Hi. f_equal.
  cbn. rewrite <- list_fmap_compose. apply list_fmap_ext. intros n d _. cbn.
  apply nth_lookup_Some with (d := VNaN).
  rewrite list_lookup_fmap. apply index_of_lookup in Hi. cbn in Hi. by rewrite Hi.
Qed.

Lemma index_of_rename (cols : list string) (old new : string) :
  new ∉ cols →
  index_of new ((fun c => default c (dict_get c [(old, new)])) <$> cols)
    = index_of old cols.
Proof.
  induction cols as [|c cols IH]; [done|].
  intros [Hne Hc]%not_elem_of_cons. specialize (IH Hc). cbn in IH |- *.
  destruct (decide (c = old)) as [->|Hco]; cbn.
  - by rewrite !decide_True.
  - rewrite (decide_False (P := new = c)) by done.
    rewrite (decide_False (P := old = c)) by done. by rewrite IH.
Qed.

End FrameFacts.

Module OutcomeFacts.

Lemma omap_length {A B} (f : A → outcome B) (l : list A) (bs : list B) :
  omap f l = Return bs → length bs = length l.
Proof.
  revert bs. induction l as [|a l IH]; intros bs; cbn; [by intros [= <-]|].
  destruct (f a); cbn; [|done]. destruct (omap f l); cbn; [|done].
  intros [= <-]. cbn. f_equal. by apply IH.
Qed.

Lemma omap_Return {A B} (f : A → outcome B) (g : A → B) (l : list A) :
  (∀ a, a ∈ l → f a = Return (g a)) → omap f l = Return (g <$> l).
Proof.
  induction l as [|a l IH]; intros H; cbn; [done|].
  rewrite (H a) by apply list_elem_of_here. cbn.
  rewrite IH; [done|]. intros x Hx. by apply H, list_elem_of_further.
Qed.

Lemma omap_fmap {A B C} (f : B → outcome C) (g : A → B) (l : list A) :
  omap f (g <$> l) = omap (fun a => f (g a)) l.
Proof. induction l as [|a l IH]; cbn; [done|]. by rewrite IH. Qed.

End OutcomeFacts.

(** ** The reader and the updater *)

Section Runs.
Import Pd PdFacts FrameFacts OutcomeFacts.

Context (get_data_home : option string → string)
        (get_API_token : option string → outcome string)
        (DATETIME_FORMAT : string)
        (colon_seperated_pair : string → outcome (string * string))
        (get_frames : string * string → string → option string → Z → Z → record
                      → outcome (list record))
        (to_datetime : value → outcome Timestamp)
        (read_back : string → DataFrame → outcome DataFrame)
        (os_makedirs : string → M unit).

Local Abbreviation load := (load_commits get_data_home to_datetime read_back).
Local Abbreviation update :=
  (update_commits get_data_home get_API_token DATETIME_FORMAT colon_seperated_pair
     get_frames to_datetime read_back os_makedirs).
Local Abbreviation filename := (update_commits_filename get_data_home).
Local Abbreviation write := (to_json).

(** The reader only reads and prints. *)
Lemma load_commits_world user project data_home use_handler branch w r w' :
  load user project data_home use_handler branch w = (r, w') →
  files w' = files w ∧ dirs w' = dirs w.
Proof.
  unfold load_commits, load_commits_try, try_except, bind, read_json, lift, raise, ret, print.
  repeat (match goal with
          | |- context [match ?x with _ => _ end] =>
              lazymatch x with
              | context [match _ with _ => _ end] => fail
              | _ => destruct x eqn:?
              end
          end; simplify_eq/=); by intros [= <- <-].
Qed.

(** The updater up to the point where the directory is made. *)
Lemma update_commits_reaches_makedirs user project auth since max_pages per_page
    data_home branch params token pair recs raw old_raw merged w w1 :
  match auth with None => get_API_token None | Some a => Return a end = Return token →
  colon_seperated_pair token = Return pair →
  get_frames pair (update_commits_url user project branch) since max_pages per_page params
    = Return recs →
  recs ≠ [] →
  update_commits_dates project (DataFrame_of recs) = Return raw →
  load user project data_home false branch w = (Return old_raw, w1) →
  update_commits_merge raw old_raw = Return merged →
  update user project auth since max_pages per_page data_home branch params w =
  (try_except (os_makedirs (dirname (filename user project data_home branch)))
     (fun e => match e with OSError _ => Some (ret tt) | _ => None end) ;;;
   write merged (filename user project data_home branch) DATETIME_FORMAT ;;;
   load user project data_home false branch) w1.
Proof.
  intros Htoken Hpair Hrecs Hne Hdates Hload Hmerge.
  unfold update_commits.
  unfold bind at 1, lift at 1.
  assert ((match auth with Some a => Return a | None => get_API_token auth end)
          = Return token) as -> by (by destruct auth).
  unfold bind at 1, lift at 1. rewrite Hpair.
  unfold bind at 1, lift at 1. rewrite Hrecs.
  assert ((len (DataFrame_of recs) =? 0) = false) as ->.
  { apply Z.eqb_neq. unfold len, DataFrame_of. cbn. rewrite length_fmap.
    destruct recs; [done | cbn; lia]. }
  unfold bind at 1, lift at 1. rewrite Hdates.
  unfold bind at 1. rewrite Hload.
  unfold bind at 1, lift at 1. rewrite Hmerge. done.
Qed.

(** C5: when the pager returns no record, the updater prints its notice and
    returns [None]; files and directories are what they were. *)
Theorem update_commits_no_activity user project auth since max_pages per_page
    data_home branch params token pair w :
  match auth with None => get_API_token None | Some a => Return a end = Return token →
  colon_seperated_pair token = Return pair →
  get_frames pair (update_commits_url user project branch) since max_pages per_page params
    = Return [] →
  update user project auth since max_pages per_page data_home branch params w =
  (Return NoData,
   {| files := files w; dirs := dirs w; stdout := stdout w ++ ["No activity found"] |}).
Proof.
  intros Htoken Hpair Hrecs. unfold update_commits.
  unfold bind at 1, lift at 1.
  assert ((match auth with Some a => Return a | None => get_API_token auth end)
          = Return token) as -> by (by destruct auth).
  unfold bind at 1, lift at 1. rewrite Hpair.
  unfold bind at 1, lift at 1. rewrite Hrecs. reflexivity.
Qed.

(** C10: whatever [OSError] the making of the directory raises, it is
    dropped and the updater goes on to write the file. *)
Theorem update_commits_makedirs_oserror user project auth since max_pages per_page
    data_home branch params token pair recs raw old_raw merged errno w w1 w2 :
  match auth with None => get_API_token None | Some a => Return a end = Return token →
  colon_seperated_pair token = Return pair →
  get_frames pair (update_commits_url user project branch) since max_pages per_page params
    = Return recs →
  recs ≠ [] →
  update_commits_dates project (DataFrame_of recs) = Return raw →
  load user project data_home false branch w = (Return old_raw, w1) →
  update_commits_merge raw old_raw = Return merged →
  os_makedirs (dirname (filename user project data_home branch)) w1
    = (Raise (OSError errno), w2) →
  update user project auth since max_pages per_page data_home branch params w =
  (write merged (filename user project data_home branch) DATETIME_FORMAT ;;;
   load user project data_home false branch) w2.
Proof.
  intros Htoken Hpair Hrecs Hne Hdates Hload Hmerge Hmk.
  erewrite update_commits_reaches_makedirs by eassumption.
  unfold bind at 1, try_except. by rewrite Hmk.
Qed.



(** C4, as the code has it: the reader returns [None] and prints a notice
    when the file is malformed, when reading it or parsing a date fails with
    a [ValueError], and when the frame has a "date" column and no row. *)
Theorem load_commits_no_data user project data_home use_handler branch msg w :
  no_data_cause to_datetime read_back w
    (load_commits_filepath get_data_home user project data_home branch) msg →
  load user project data_home use_handler branch w =
  (Return NoData, {| files := files w; dirs := dirs w; stdout := stdout w ++ [msg] |}).
Proof.
  intros Hcause. unfold load_commits, load_commits_try.
  unfold bind at 1, try_except, bind at 1, bind at 1, read_json.
  destruct Hcause as [b m Hf | fmt st m Hf Hr | fmt st df cells m Hf Hr Hg Hd
                     | fmt st df Hf Hr Hc Hrows]; rewrite Hf; try done.
  - by rewrite Hr.
  - rewrite Hr. unfold bind at 1, lift at 1. rewrite Hg.
    unfold bind at 1, lift at 1. by rewrite Hd.
  - rewrite Hr. unfold bind at 1, lift at 1. rewrite getitem_elem by done.
    rewrite Hrows. cbn.
    apply index_of_elem in Hc as [i Hi].
    unfold bind, lift, setitem. cbn. rewrite Hrows, Hi. reflexivity.
Qed.

Lemma localize_naive (idx : list Timestamp) :
  Forall (fun t => tz t = None) idx →
  omap (tz_localize UTC) idx = Return (as_utc <$> idx).
Proof.
  intros Hn. apply omap_Return. intros t Ht.
  rewrite Forall_forall in Hn. unfold tz_localize. by rewrite (Hn t Ht).
Qed.

Lemma convert_utc (idx : list Timestamp) :
  omap (tz_convert US_Pacific) (as_utc <$> idx) = Return (in_pacific <$> idx).
Proof.
  induction idx as [|t idx IH]; [done|]. cbn. by rewrite IH.
Qed.

Lemma setitem_present (df : DataFrame) (c : string) (vals : list value) (i : nat) :
  index_of c (columns df) = Some i →
  length vals = length (rows df) →
  setitem df c vals =
  Return {| columns := columns df;
            rows := zip_with (fun r v => set_nth i v r) (rows df) vals |}.
Proof.
  intros Hi Hl. unfold setitem. rewrite Hi.
  by rewrite (proj2 (Nat.eqb_eq _ _) Hl).
Qed.

(** C8: a cache file that reads to a frame with at least one row, whose
    dates parse to naive date-times, is returned with every date read as
    UTC and shown in US/Pacific: as the frame itself when [use_handler] is
    false, wrapped with user and project when it is true. *)
Theorem load_commits_present user project data_home use_handler branch
    date_format stored df cells idx w :
  files w !! load_commits_filepath get_data_home user project data_home branch
    = Some (Stored date_format stored) →
  read_back date_format stored = Return df →
  rows df ≠ [] →
  getitem df "date" = Return cells →
  omap to_datetime cells = Return idx →
  Forall (fun t => tz t = None) idx →
  ∃ commits,
    omap (tz_localize UTC) idx = Return (as_utc <$> idx) ∧
    omap (tz_convert US_Pacific) (as_utc <$> idx) = Return (in_pacific <$> idx) ∧
    setitem df "date" (VTime <$> (in_pacific <$> idx)) = Return commits ∧
    getitem commits "date" = Return (VTime <$> (in_pacific <$> idx)) ∧
    load user project data_home use_handler branch w =
    (Return (if use_handler
             then Handler {| pc_user := user; pc_project := project;
                             pc_commits := commits |}
             else Commits commits), w).
Proof.
  intros Hf Hr Hrows Hg Hd Hn.
  pose proof (omap_length _ _ _ Hd) as Hlen.
  pose proof (getitem_cells _ _ _ Hg) as Hcells.
  assert (length (VTime <$> (in_pacific <$> idx)) = length (rows df)) as Hl.
  { by rewrite !length_fmap, Hlen, Hcells, length_fmap. }
  assert (∃ i, index_of "date" (columns df) = Some i) as [i Hi].
  { unfold getitem in Hg. destruct (index_of "date" (columns df)); [by eexists | done]. }
  eexists. split; [by apply localize_naive|]. split; [apply convert_utc|].
  split; [by apply setitem_present|]. split.
  - eapply getitem_setitem. by apply setitem_present.
  - unfold load_commits, load_commits_try.
    unfold bind at 1, try_except, bind at 1, bind at 1, read_json. rewrite Hf, Hr.
    unfold bind at 1, lift at 1. rewrite Hg.
    unfold bind at 1, lift at 1. rewrite Hd. cbn [obind].
    rewrite localize_naive by done. cbn [obind]. rewrite convert_utc.
    unfold bind at 1, lift at 1. rewrite (setitem_present _ _ _ i) by done.
    assert ((len {| columns := columns df;
                    rows := zip_with (fun r v => set_nth i v r) (rows df)
                              (VTime <$> (in_pacific <$> idx)) |} =? 0) = false) as ->.
    { apply Z.eqb_neq. unfold len. cbn. rewrite length_zip_with, Hl.
      destruct (rows df); [done | cbn; lia]. }
    by destruct use_handler.
Qed.

End Runs.

(** ** Normalising the fetched records *)

Section Dates.
Import Pd PdFacts FrameFacts OutcomeFacts.

Lemma subscript_author_date (d : record) :
  is_Some (author_date d) →
  obind (subscript (default VNaN (dict_get "commit" d)) "author")
    (fun a => subscript a "date") = Return (default VNaN (author_date d)).
Proof.
  unfold author_date. intros [v Hv].
  destruct (dict_get "commit" d) as [[| | | |commit|]|]; try done. cbn.
  destruct (dict_get "author" commit) as [[| | | |author|]|]; try done. cbn.
  by rewrite Hv.
Qed.

(** C6: a batch of at least one record leaves the normalisation with a
    "date" column.  Without a project it is the "created_at" field of every
    record, renamed; with a project it is the author date nested in the
    "commit" field of every record. *)
Theorem update_commits_dates_canonical (project : option string) (recs : list record) :
  recs ≠ [] →
  (∀ d, d ∈ recs →
        match project with
        | None => is_Some (dict_get "created_at" d) ∧ dict_get "date" d = None
        | Some _ => is_Some (author_date d)
        end) →
  ∃ raw,
    update_commits_dates project (DataFrame_of recs) = Return raw ∧
    "date" ∈ columns raw ∧
    getitem raw "date" = Return (canonical_date project <$> recs) ∧
    (project = None →
     ("created_at" ∉ columns raw) ∧ rows raw = rows (DataFrame_of recs)).
Proof.
  intros Hne Hrecs.
  assert (∃ d0, d0 ∈ recs) as [d0 Hd0].
  { destruct recs as [|d0 ?]; [done|]. exists d0. apply list_elem_of_here. }
  destruct project as [p|]; cbn [update_commits_dates canonical_date].
  - assert ("commit" ∈ columns (DataFrame_of recs)) as Hcommit.
    { apply DataFrame_of_columns. exists d0. split; [done|].
      specialize (Hrecs d0 Hd0). unfold author_date in Hrecs.
      destruct (dict_get "commit" d0); [by eexists | by destruct Hrecs]. }
    rewrite DataFrame_of_getitem by done. cbn [obind].
    rewrite omap_fmap.
    rewrite (omap_Return _ (fun d => default VNaN (author_date d))); cycle 1.
    { intros d Hd. by apply subscript_author_date, Hrecs. }
    cbn [obind].
    destruct (setitem (DataFrame_of recs) "date"
                ((fun d => default VNaN (author_date d)) <$> recs)) as [raw|e] eqn:Hset.
    + exists raw. apply getitem_setitem in Hset as [? ?]. done.
    + exfalso. revert Hset. unfold setitem. cbn [rows DataFrame_of].
      rewrite !length_fmap, Nat.eqb_refl. cbn. by destruct (index_of _ _).
  - eexists. split; [done|].
    assert ("date" ∉ columns (DataFrame_of recs)) as Hnodate.
    { intros (d & Hd & Hsome)%DataFrame_of_columns.
      destruct (Hrecs d Hd) as [_ Hnone]. rewrite Hnone in Hsome. by destruct Hsome. }
    assert ("created_at" ∈ columns (DataFrame_of recs)) as Hcreated.
    { apply DataFrame_of_columns. exists d0. split; [done | apply Hrecs, Hd0]. }
    pose proof (DataFrame_of_getitem recs "created_at" Hcreated) as Hget.
    apply index_of_elem in Hcreated as Hidx. destruct Hidx as [i Hi].
    pose proof (index_of_rename (columns (DataFrame_of recs)) "created_at" "date" Hnodate)
      as Hren.
    split; [|split; [|intros _; split; [|done]]].
    + apply index_of_elem. unfold rename. cbn [columns].
      rewrite Hren. by eexists.
    + unfold getitem, rename in *. cbn [columns rows] in *.
      rewrite Hren. by rewrite Hi in Hget |- *.
    + unfold rename. cbn [columns].
      intros (c & Hc & Hin)%list_elem_of_fmap. cbn in Hc.
      destruct (decide (c = "created_at")) as [->|Hcc]; cbn in Hc; [done|]. congruence.
Qed.

End Dates.

(** * Further properties *)

(** ** The matcher, continued *)

Section MatcherMore.
Import Text TextFacts.

Context (tolower_full : N → list N) (is_cased is_case_ignorable : N → bool).

Local Abbreviation lower := (str_lower tolower_full is_cased is_case_ignorable).

(** The loop counts hits; its answer is that of a search through the list. *)
Lemma find_word_existsb (text : list N) (l : list (list N)) :
  find_word_in_string tolower_full is_cased is_case_ignorable text (QList l) =
  existsb (fun word => contains (lower text) (lower word)) l.
Proof.
  apply Bool.eq_iff_eq_true.
  rewrite find_word_in_string_exists, existsb_exists. cbn. split.
  - intros (w & Hw & Hc). exists w. by rewrite <- list_elem_of_In.
  - intros (w & Hw & Hc). exists w. by rewrite list_elem_of_In.
Qed.

(** X1: asking about two lists of words at once is asking about each and
    taking the disjunction; more words never turn a match into a miss. *)
Theorem find_word_in_string_app (text : list N) (l1 l2 : list (list N)) :
  find_word_in_string tolower_full is_cased is_case_ignorable text (QList (l1 ++ l2)) =
  find_word_in_string tolower_full is_cased is_case_ignorable text (QList l1) ||
  find_word_in_string tolower_full is_cased is_case_ignorable text (QList l2).
Proof. rewrite !find_word_existsb. apply existsb_app. Qed.

(** X2: the order of the query words, and how often each is given, does not
    matter: lists with the same members get the same answer. *)
Theorem find_word_in_string_same_members (text : list N) (l1 l2 : list (list N)) :
  (∀ word, word ∈ l1 ↔ word ∈ l2) →
  find_word_in_string tolower_full is_cased is_case_ignorable text (QList l1) =
  find_word_in_string tolower_full is_cased is_case_ignorable text (QList l2).
Proof.
  intros Hmem. rewrite !find_word_existsb. apply Bool.eq_iff_eq_true.
  rewrite !existsb_exists. split; intros (w & Hw & Hc); exists w;
    (split; [|done]); apply list_elem_of_In, Hmem; by apply list_elem_of_In.
Qed.

(** X3: the empty word occurs in every text, so a query that holds it
    matches whatever the text is, the empty text included. *)
Theorem find_word_in_string_empty_word (text : list N) (queries : queries_arg) :
  [] ∈ query_words queries →
  find_word_in_string tolower_full is_cased is_case_ignorable text queries = true.
Proof.
  intros Hin. apply find_word_in_string_exists. exists [].
  split; [done|]. cbn. by destruct (lower text).
Qed.

End MatcherMore.
(** ** Cache locations, continued *)

Section PathsMore.
Import Str StrFacts.

Lemma valid_name_inv (s : string) :
  valid_name s = true → s ≠ "" ∧ contains s "/" = false.
Proof.
  unfold valid_name. intros [H1 H2]%andb_true_iff.
  apply negb_true_iff in H1, H2. by apply bool_decide_eq_false in H1.
Qed.

Lemma valid_root_inv (s : string) :
  valid_root s = true → s ≠ "" ∧ endswith s "/" = false.
Proof.
  unfold valid_root. intros [H1 H2]%andb_true_iff.
  apply negb_true_iff in H1, H2. by apply bool_decide_eq_false in H1.
Qed.

Lemma contains_cons_false (c : ascii) (s p : string) :
  contains (String c s) p = false → startswith (String c s) p = false ∧ contains s p = false.
Proof. cbn -[startswith]. by intros ?%orb_false_iff. Qed.

Lemma no_sep_head (c : ascii) (s : string) :
  contains (String c s) "/" = false → c ≠ "/"%char ∧ contains s "/" = false.
Proof.
  intros [H1 H2]%contains_cons_false. split; [|done].
  intros ->. cbn in H1. by rewrite decide_True in H1.
Qed.

(** Names without separator are read off a path unambiguously. *)
Lemma split_first_sep (a b x y : string) :
  contains a "/" = false → contains b "/" = false →
  a +:+ "/" +:+ x = b +:+ "/" +:+ y → a = b ∧ x = y.
Proof.
  revert b. induction a as [|c a IH]; intros [|d b] Ha Hb H.
  - rewrite !app_nil_l in H. by injection H.
  - apply no_sep_head in Hb as [Hd _]. rewrite app_nil_l, !app_cons in H.
    injection H as H _. congruence.
  - apply no_sep_head in Ha as [Hc _]. rewrite app_nil_l, !app_cons in H.
    injection H as H _. congruence.
  - apply no_sep_head in Ha as [_ Ha]. apply no_sep_head in Hb as [_ Hb].
    rewrite !app_cons in H. injection H as -> H.
    destruct (IH b Ha Hb H) as [-> ->]. done.
Qed.

Ltac join_walk :=
  repeat (rewrite join_cons;
          match goal with
          | |- context [join ?p [?b]] =>
              let H1 := fresh in let H2 := fresh in
              destruct (join_step p b) as [H1 H2]; [done | done |];
              rewrite H1; clear H1
          end);
  rewrite join_nil.

(** The three shapes, for use below. *)
Lemma filename_shape (get_data_home : option string → string)
    (user : string) (project data_home branch : option string) :
  valid_root (get_data_home data_home) = true →
  valid_name user = true →
  (∀ p, project = Some p → valid_name p = true) →
  (∀ b, branch = Some b → valid_name b = true) →
  update_commits_filename get_data_home user project data_home branch =
    match project, branch with
    | None, _ =>
        get_data_home data_home +:+ "/users/" +:+ user +:+ "/" +:+ "activity.json"
    | Some project, None =>
        get_data_home data_home +:+ "/projects/" +:+ user +:+ "/" +:+ project
          +:+ "/" +:+ "commits.json"
    | Some project, Some branch =>
        get_data_home data_home +:+ "/projects/" +:+ user +:+ "/" +:+ project
          +:+ "/" +:+ "branches/" +:+ branch +:+ "/" +:+ "commits.json"
    end.
Proof.
  intros Hroot Huser Hproject Hbranch.
  unfold update_commits_filename. cbv zeta.
  set (root := get_data_home data_home) in *.
  destruct project as [p|]; [destruct branch as [b|]|].
  - specialize (Hproject p eq_refl). specialize (Hbranch b eq_refl).
    join_walk. by rewrite !app_assoc.
  - specialize (Hproject p eq_refl). join_walk. by rewrite !app_assoc.
  - join_walk. by rewrite !app_assoc.
Qed.

(** X4: two keys of valid names that resolve to the same cache file are the
    same key: same user, same project, and, where there is a project, same
    branch. *)
Theorem cache_location_injective (get_data_home : option string → string)
    (data_home : option string)
    (user user' : string) (project project' branch branch' : option string) :
  valid_root (get_data_home data_home) = true →
  valid_name user = true → valid_name user' = true →
  (∀ p, project = Some p ∨ project' = Some p → valid_name p = true) →
  (∀ b, branch = Some b ∨ branch' = Some b → valid_name b = true) →
  update_commits_filename get_data_home user project data_home branch =
    update_commits_filename get_data_home user' project' data_home branch' →
  user = user' ∧ project = project' ∧ (project ≠ None → branch = branch').
Proof.
  intros Hroot Hu Hu' Hp Hb.
  rewrite !filename_shape by (done || naive_solver).
  apply valid_name_inv in Hu as [_ Hu]. apply valid_name_inv in Hu' as [_ Hu'].
  assert (∀ p, project = Some p ∨ project' = Some p → contains p "/" = false) as Hp'.
  { intros p H. by apply valid_name_inv, Hp. }
  assert (∀ b, branch = Some b ∨ branch' = Some b → contains b "/" = false) as Hb'.
  { intros b H. by apply valid_name_inv, Hb. }
  clear Hp Hb.
  intros H. destruct project as [p|], project' as [p'|], branch as [b|], branch' as [b'|];
    apply (inj (String.app _)) in H; rewrite !app_cons, !app_nil_l in H;
    try discriminate H; injection H as H;
    apply split_first_sep in H as [-> H]; try done;
    try (split; [done|]; split; [done|]; by intros []);
    apply split_first_sep in H as [-> H]; try (by auto);
    rewrite ?app_cons, ?app_nil_l in H; try discriminate H;
    try (split; [done|]; split; [done|]; by intros _).
  injection H as H. apply split_first_sep in H as [-> _]; by auto.
Qed.

Lemma contains_sep_app (d b : string) : contains (d +:+ "/" +:+ b) "/" = true.
Proof. apply contains_spec. by exists d, b. Qed.

Lemma cut_last_sep_app (d b : string) :
  contains b "/" = false → cut_last_sep (d +:+ "/" +:+ b) = d +:+ "/".
Proof.
  intros Hb. induction d as [|c d IH].
  - change ("" +:+ "/" +:+ b) with (String "/" b). cbn -[contains].
    by rewrite Hb, bool_decide_eq_true_2.
  - rewrite (app_cons c d). cbn -[contains].
    by rewrite contains_sep_app, IH.
Qed.

Lemma rstrip_sep_app (d : string) :
  endswith d "/" = false → rstrip_sep (d +:+ "/") = d.
Proof.
  induction d as [|c d IH]; [done|].
  cbn [endswith]. intros [Hc Hd]%orb_false_iff. apply bool_decide_eq_false in Hc.
  rewrite app_cons. cbn [rstrip_sep]. rewrite (IH Hd).
  destruct (bool_decide (c = "/"%char)) eqn:E1; [|done].
  destruct (bool_decide (d = "")) eqn:E2; [|done].
  apply bool_decide_eq_true in E1, E2. by subst.
Qed.

(** The directory of a file right below a directory is that directory. *)
Lemma dirname_below (d b : string) :
  valid_root d = true → contains b "/" = false → dirname (d +:+ "/" +:+ b) = d.
Proof.
  intros [Hd1 Hd2]%valid_root_inv Hb. unfold dirname.
  rewrite cut_last_sep_app, rstrip_sep_app by done.
  by rewrite bool_decide_eq_false_2.
Qed.

Lemma valid_root_below (d b : string) :
  valid_root d = true → valid_name b = true → valid_root (d +:+ "/" +:+ b) = true.
Proof. intros Hd Hb. by destruct (join_step d b Hd Hb). Qed.

Ltac dirname_of H file :=
  match type of H with
  | valid_root ?D = true =>
      trans (dirname (D +:+ "/" +:+ file));
      [ f_equal; by rewrite !app_assoc
      | rewrite (dirname_below D file H eq_refl); by rewrite !app_assoc ]
  end.

(** X5: the directory the updater makes before it writes is the cache
    file's own directory: the user's below "users", the project's below
    "projects", the branch's below "branches". *)
Theorem update_commits_directory (get_data_home : option string → string)
    (user : string) (project data_home branch : option string) :
  valid_root (get_data_home data_home) = true →
  valid_name user = true →
  (∀ p, project = Some p → valid_name p = true) →
  (∀ b, branch = Some b → valid_name b = true) →
  dirname (update_commits_filename get_data_home user project data_home branch) =
    match project, branch with
    | None, _ => get_data_home data_home +:+ "/users/" +:+ user
    | Some project, None =>
        get_data_home data_home +:+ "/projects/" +:+ user +:+ "/" +:+ project
    | Some project, Some branch =>
        get_data_home data_home +:+ "/projects/" +:+ user +:+ "/" +:+ project
          +:+ "/branches/" +:+ branch
    end.
Proof.
  intros Hroot Huser Hproject Hbranch.
  rewrite filename_shape by done.
  set (root := get_data_home data_home) in *.
  assert (valid_root (root +:+ "/" +:+ "users") = true) as Husers
    by by apply valid_root_below.
  assert (valid_root (root +:+ "/" +:+ "projects") = true) as Hprojects
    by by apply valid_root_below.
  destruct project as [p|]; [specialize (Hproject p eq_refl); destruct branch as [b|]|].
  - specialize (Hbranch b eq_refl).
    pose proof (valid_root_below _ _ Hprojects Huser) as H1.
    pose proof (valid_root_below _ _ H1 Hproject) as H2.
    pose proof (valid_root_below _ "branches" H2 eq_refl) as H3.
    pose proof (valid_root_below _ _ H3 Hbranch) as H4.
    dirname_of H4 "commits.json".
  - pose proof (valid_root_below _ _ Hprojects Huser) as H1.
    pose proof (valid_root_below _ _ H1 Hproject) as H2.
    dirname_of H2 "commits.json".
  - pose proof (valid_root_below _ _ Husers Huser) as H1.
    dirname_of H1 "activity.json".
Qed.

(** X6: a user name that starts with the separator is taken as an absolute
    path: the file resolved for it lies outside the data home, whose value
    no longer matters; without a project it is "activity.json" right below
    the path the name spells. *)
Theorem cache_location_absolute_user (get_data_home get_data_home' : option string → string)
    (user : string) (project data_home data_home' branch : option string) :
  startswith user "/" = true →
  update_commits_filename get_data_home user project data_home branch =
    update_commits_filename get_data_home' user project data_home' branch ∧
  (project = None →
   update_commits_filename get_data_home user project data_home branch =
     if endswith user "/" then user +:+ "activity.json"
     else user +:+ "/" +:+ "activity.json").
Proof.
  intros Habs.
  assert (∀ root first rest, startswith first "/" = false →
            join root (first :: user :: rest) = join user rest) as Hjoin.
  { intros root first rest Hfirst. unfold join. cbn [foldl]. by rewrite Hfirst, Habs. }
  unfold update_commits_filename.
  destruct project as [p|]; [destruct branch as [b|]|]; cbv zeta;
    rewrite !Hjoin by done; (split; [done|]); try done.
  intros _. unfold join. cbn [foldl].
  change (startswith "activity.json" "/") with false. cbv iota.
  rewrite bool_decide_eq_false_2; [done|].
  intros ->. discriminate Habs.
Qed.

End PathsMore.

(** ** The reader, continued *)

Section ReaderMore.
Import Pd PdFacts FrameFacts OutcomeFacts.

Context (get_data_home : option string → string)
        (to_datetime : value → outcome Timestamp)
        (read_back : string → DataFrame → outcome DataFrame).

Local Abbreviation load := (load_commits get_data_home to_datetime read_back).
Local Abbreviation filepath := (load_commits_filepath get_data_home).

Lemma localize_inv (ts out : list Timestamp) :
  omap (tz_localize UTC) ts = Return out → Forall (fun t => tz t = None) ts.
Proof.
  revert out. induction ts as [|t ts IH]; intros out; cbn; [by constructor|].
  unfold tz_localize at 1. destruct (tz t) eqn:Ht; cbn; [done|].
  destruct (omap (tz_localize UTC) ts) eqn:E; cbn; [|done].
  intros _. constructor; [done | by eapply IH].
Qed.

(** What the body of the [try] has gone through when it returns. *)
Lemma load_commits_try_Return (path : string) (commits : DataFrame) (w w' : World) :
  load_commits_try to_datetime read_back path w = (Return commits, w') →
  w' = w ∧
  ∃ date_format stored df cells ts,
    files w !! path = Some (Stored date_format stored) ∧
    read_back date_format stored = Return df ∧
    getitem df "date" = Return cells ∧
    omap to_datetime cells = Return ts ∧
    Forall (fun t => tz t = None) ts ∧
    setitem df "date" (VTime <$> (in_pacific <$> ts)) = Return commits ∧
    rows commits ≠ [].
Proof.
  unfold load_commits_try, bind, read_json, lift.
  destruct (files w !! path) as [[fmt stored|]|] eqn:Hf; [|done..].
  destruct (read_back fmt stored) as [df|] eqn:Hr; [|done].
  destruct (getitem df "date") as [cells|] eqn:Hg; [|done].
  destruct (omap to_datetime cells) as [ts|] eqn:Hd; cbn [obind]; [|done].
  destruct (omap (tz_localize UTC) ts) as [utc|] eqn:Hl; cbn [obind]; [|done].
  pose proof (localize_inv _ _ Hl) as Hnaive.
  rewrite (localize_naive _ Hnaive) in Hl. injection Hl as <-.
  rewrite convert_utc.
  destruct (setitem df "date" _) as [out|] eqn:Hs; [|done].
  destruct (len out =? 0) eqn:Hlen; [done|].
  intros [= <- <-]. split; [done|].
  exists fmt, stored, df, cells, ts. repeat (split; [done|]).
  intros Hrows. apply Z.eqb_neq in Hlen. unfold len in Hlen. rewrite Hrows in Hlen. done.
Qed.

(** X7: the reader never writes.  Files and directories are what they were
    whatever it returns or raises, and it prints, one notice, only on the
    way to returning [None]. *)
Theorem load_commits_read_only user project data_home use_handler branch r w w' :
  load_commits get_data_home to_datetime read_back user project data_home use_handler branch w
    = (r, w') →
  w' = w ∨
  (r = Return NoData ∧
   ∃ msg, w' = {| files := files w; dirs := dirs w; stdout := stdout w ++ [msg] |}).
Proof.
  unfold load_commits, try_except, bind at 1, bind at 1.
  destruct (load_commits_try _ _ _ w) as [[commits|e] w1] eqn:Htry.
  - apply load_commits_try_Return in Htry as [-> _]. unfold ret.
    destruct (negb use_handler); intros [= <- <-]; by left.
  - assert (w1 = w) as ->.
    { revert Htry. unfold load_commits_try, bind, read_json, lift, raise, ret.
      repeat (match goal with
              | |- context [match ?x with _ => _ end] =>
                  lazymatch x with
                  | context [match _ with _ => _ end] => fail
                  | _ => destruct x eqn:?
                  end
              end; simplify_eq/=); by intros [= <-]. }
    destruct e; try (intros [= <- <-]; by left).
    unfold bind, print, ret. intros [= <- <-]. right. split; [done | by eexists].
Qed.

(** X8: what the reader returns, when it is not [None], is a frame of at
    least one row whose "date" column holds timestamps shown in US/Pacific,
    bare or wrapped as [use_handler] says. *)
Theorem load_commits_result user project data_home use_handler branch res w w' :
  load user project data_home use_handler branch w = (Return res, w') →
  res ≠ NoData →
  ∃ commits idx,
    res = (if use_handler
           then Handler {| pc_user := user; pc_project := project; pc_commits := commits |}
           else Commits commits) ∧
    rows commits ≠ [] ∧
    getitem commits "date" = Return (VTime <$> idx) ∧
    length idx = length (rows commits) ∧
    Forall (fun t => tz t = Some US_Pacific) idx.
Proof.
  unfold load_commits, try_except, bind at 1, bind at 1.
  destruct (load_commits_try _ _ _ w) as [[commits|e] w1] eqn:Htry.
  - apply load_commits_try_Return in Htry
      as [-> (fmt & stored & df & cells & ts & _ & _ & Hg & Hd & _ & Hs & Hrows)].
    unfold ret. intros Hres _. exists commits, (in_pacific <$> ts).
    split; [destruct use_handler; by injection Hres|]. split; [done|].
    pose proof (getitem_setitem _ _ _ _ Hs) as [_ Hget].
    split; [done|]. split.
    + apply getitem_cells in Hget. apply (f_equal length) in Hget.
      rewrite length_fmap. by rewrite !length_fmap in Hget.
    + apply Forall_fmap, Forall_forall. by intros t _.
  - destruct e; try done. unfold bind, print, ret. by intros [= <- _] ?.
Qed.

(** X9: a cache whose frame has no "date" column is not reported as absent:
    the reader raises [KeyError], prints nothing and changes nothing. *)
Theorem load_commits_missing_column user project data_home use_handler branch
    date_format stored df w :
  files w !! filepath user project data_home branch = Some (Stored date_format stored) →
  read_back date_format stored = Return df →
  "date" ∉ columns df →
  load user project data_home use_handler branch w = (Raise (KeyError "date"), w).
Proof.
  intros Hf Hr Hc.
  assert (getitem df "date" = Raise (KeyError "date")) as Hg.
  { unfold getitem. destruct (index_of "date" (columns df)) eqn:E; [|done].
    exfalso. apply Hc, index_of_elem. by eexists. }
  unfold load_commits, load_commits_try, try_except, bind, read_json, lift.
  by rewrite Hf, Hr, Hg.
Qed.

(** The outcome of the reader is decided by the files alone. *)
Lemma load_commits_files_only user project data_home use_handler branch w1 w2 :
  files w1 = files w2 →
  (load user project data_home use_handler branch w1).1 =
  (load user project data_home use_handler branch w2).1.
Proof.
  intros Hf.
  unfold load_commits, load_commits_try, try_except, bind, read_json, lift, raise, ret, print.
  rewrite Hf.
  repeat (match goal with
          | |- context [match ?x with _ => _ end] =>
              lazymatch x with
              | context [match _ with _ => _ end] => fail
              | _ => destruct x eqn:?
              end
          end; simplify_eq/=); done.
Qed.

(** X10: reading again gives the same answer: the reader, run in the world
    it left, returns or raises what it did the first time. *)
Theorem load_commits_again user project data_home use_handler branch r w w' :
  load_commits get_data_home to_datetime read_back user project data_home use_handler branch w
    = (r, w') →
  (load_commits get_data_home to_datetime read_back user project data_home use_handler branch w').1
    = r.
Proof.
  intros Hload.
  assert (files w' = files w) as Hf.
  { by destruct (load_commits_world _ _ _ _ _ _ _ _ _ _ _ Hload). }
  rewrite (load_commits_files_only _ _ _ _ _ w' w Hf). by rewrite Hload.
Qed.

End ReaderMore.

(** ** The merge, continued *)

Section MergeMore.
Import Pd PdFacts FrameFacts.

Lemma keep_first_sublist (key : list value → value) (seen : list value)
    (rs : list (list value)) :
  sublist (keep_first key seen rs) rs.
Proof.
  revert seen. induction rs as [|x rs IH]; intros seen; cbn; [constructor|].
  destruct (existsb _ _); [by apply sublist_cons | by apply sublist_skip].
Qed.

(** Every row is represented among the kept ones, unless its key was seen. *)
Lemma keep_first_covers (key : list value → value) (seen : list value)
    (rs : list (list value)) (r : list value) :
  r ∈ rs → hashable (key r) = true →
  existsb (key_eqb (key r)) seen = true ∨
  ∃ m, m ∈ keep_first key seen rs ∧ key_eqb (key m) (key r) = true.
Proof.
  intros Hr Hh. revert seen. induction rs as [|x rs IH]; intros seen.
  { by apply elem_of_nil in Hr. }
  cbn. apply elem_of_cons in Hr as [->|Hr].
  - destruct (existsb (key_eqb (key x)) seen) eqn:E; [by left|].
    right. exists x. split; [apply list_elem_of_here | by apply key_eqb_refl].
  - destruct (existsb (key_eqb (key x)) seen) eqn:E; [by apply IH|].
    destruct (IH Hr (key x :: seen)) as [Hseen|(m & Hm & Hk)].
    + cbn in Hseen. apply orb_true_iff in Hseen as [Hx|Hseen]; [|by left].
      right. exists x. split; [apply list_elem_of_here | by rewrite key_eqb_sym].
    + right. exists m. split; [by apply list_elem_of_further | done].
Qed.

Lemma concat_pair_rows (raw old : DataFrame) :
  rows (Pd.concat [raw; old]) =
  (reindex (columns raw) (columns (Pd.concat [raw; old])) <$> rows raw) ++
  (reindex (columns old) (columns (Pd.concat [raw; old])) <$> rows old).
Proof. cbn. by rewrite app_nil_r. Qed.

Lemma concat_pair_columns (raw old : DataFrame) (c : string) :
  c ∈ columns (Pd.concat [raw; old]) ↔ c ∈ columns raw ∨ c ∈ columns old.
Proof.
  cbn [Pd.concat columns]. rewrite union_cols_elem. cbn. split.
  - intros (cols & Hin & Hc).
    apply elem_of_cons in Hin as [->|Hin]; [by left|].
    apply list_elem_of_singleton in Hin as ->. by right.
  - intros [H|H]; eexists; (split; [|exact H]).
    + apply list_elem_of_here.
    + apply list_elem_of_further, list_elem_of_here.
Qed.

(** X11: the merge invents nothing and keeps the order: its rows are a
    subsequence of the fresh rows followed by the cached rows, each read
    under the labels of both frames. *)
Theorem update_commits_merge_sublist (raw old_raw merged : DataFrame) :
  update_commits_merge raw (Commits old_raw) = Return merged →
  (∀ c, c ∈ columns merged ↔ c ∈ columns raw ∨ c ∈ columns old_raw) ∧
  sublist (rows merged)
    ((reindex (columns raw) (columns merged) <$> rows raw) ++
     (reindex (columns old_raw) (columns merged) <$> rows old_raw)).
Proof.
  intros Hmerge. cbn in Hmerge.
  apply drop_duplicates_Return in Hmerge as (_ & _ & Hcols & Hrows).
  rewrite Hcols, Hrows. split; [apply concat_pair_columns|].
  rewrite <- concat_pair_rows. apply keep_first_sublist.
Qed.

(** X12: the merge loses no date: every fresh record and every cached
    record has, in the merged frame, a record of an equal date. *)
Theorem update_commits_merge_covers (raw old_raw merged : DataFrame) :
  update_commits_merge raw (Commits old_raw) = Return merged →
  ∀ cols r,
    (cols = columns raw ∧ r ∈ rows raw) ∨ (cols = columns old_raw ∧ r ∈ rows old_raw) →
    ∃ m, m ∈ rows merged ∧
         key_eqb (cell (columns merged) "date" m) (cell cols "date" r) = true.
Proof.
  intros Hmerge cols r Hr. cbn in Hmerge.
  apply drop_duplicates_Return in Hmerge as (Hc & Hh & Hcols & Hrows).
  set (all := columns (Pd.concat [raw; old_raw])) in *.
  assert (reindex cols all r ∈ rows (Pd.concat [raw; old_raw])) as Hin.
  { rewrite concat_pair_rows. apply elem_of_app.
    destruct Hr as [[-> Hr]|[-> Hr]]; [left | right];
      apply list_elem_of_fmap; by exists r. }
  destruct (keep_first_covers (cell all "date") [] _ _ Hin (Hh _ Hin))
    as [Hseen|(m & Hm & Hk)]; [done|].
  exists m. rewrite Hrows, Hcols. split; [done|].
  by rewrite cell_reindex in Hk.
Qed.

End MergeMore.

(** ** The updater, continued *)

Section UpdaterMore.
Import Pd PdFacts FrameFacts OutcomeFacts.

Context (get_data_home : option string → string)
        (get_API_token : option string → outcome string)
        (DATETIME_FORMAT : string)
        (colon_seperated_pair : string → outcome (string * string))
        (get_frames : string * string → string → option string → Z → Z → record
                      → outcome (list record))
        (to_datetime : value → outcome Timestamp)
        (read_back : string → DataFrame → outcome DataFrame)
        (os_makedirs : string → M unit).

Local Abbreviation load := (load_commits get_data_home to_datetime read_back).
Local Abbreviation update :=
  (update_commits get_data_home get_API_token DATETIME_FORMAT colon_seperated_pair
     get_frames to_datetime read_back os_makedirs).
Local Abbreviation filename := (update_commits_filename get_data_home).

(** The updater once the records are there. *)
Lemma update_commits_fetched user project auth since max_pages per_page
    data_home branch params token pair recs w :
  (match auth with None => get_API_token None | Some a => Return a end) = Return token →
  colon_seperated_pair token = Return pair →
  get_frames pair (update_commits_url user project branch) since max_pages per_page params
    = Return recs →
  recs ≠ [] →
  update user project auth since max_pages per_page data_home branch params w =
  (raw <- lift (update_commits_dates project (DataFrame_of recs)) ;;
   old_raw <- load user project data_home false branch ;;
   raw <- lift (update_commits_merge raw old_raw) ;;
   try_except (os_makedirs (dirname (filename user project data_home branch)))
     (fun e => match e with OSError _ => Some (ret tt) | _ => None end) ;;;
   to_json raw (filename user project data_home branch) DATETIME_FORMAT ;;;
   load user project data_home false branch) w.
Proof.
  intros Htoken Hpair Hrecs Hne. unfold update_commits.
  unfold bind at 1, lift at 1.
  assert ((match auth with Some a => Return a | None => get_API_token auth end)
          = Return token) as -> by (by destruct auth).
  unfold bind at 1, lift at 1. rewrite Hpair.
  unfold bind at 1, lift at 1. rewrite Hrecs.
  assert ((len (DataFrame_of recs) =? 0) = false) as ->; [|done].
  apply Z.eqb_neq. unfold len, DataFrame_of. cbn. rewrite length_fmap.
  destruct recs; [done | cbn; lia].
Qed.

(** X13: a failure of the credential lookup, of the splitting of the
    credentials or of the pager leaves the updater with that very exception;
    nothing is read, written or printed. *)
Theorem update_commits_fetch_error user project auth since max_pages per_page
    data_home branch params e w :
  obind (match auth with None => get_API_token None | Some a => Return a end)
    (fun token => obind (colon_seperated_pair token)
    (fun pair => get_frames pair (update_commits_url user project branch)
                   since max_pages per_page params)) = Raise e →
  update user project auth since max_pages per_page data_home branch params w
    = (Raise e, w).
Proof.
  unfold update_commits, bind, lift.
  destruct auth as [a|]; cbn [obind].
  - destruct (colon_seperated_pair a); cbn [obind]; [|by intros [= ->]].
    destruct (get_frames _ _ _ _ _ _); [done | by intros [= ->]].
  - destruct (get_API_token None) as [token|]; cbn [obind]; [|by intros [= ->]].
    destruct (colon_seperated_pair token); cbn [obind]; [|by intros [= ->]].
    destruct (get_frames _ _ _ _ _ _); [done | by intros [= ->]].
Qed.

(** X14: asked for the commits of a project, a batch in which no record has
    a "commit" field makes the updater raise [KeyError]; the cache is
    neither read nor written. *)
Theorem update_commits_missing_commit user project auth since max_pages per_page
    data_home branch params token pair recs w :
  (match auth with None => get_API_token None | Some a => Return a end) = Return token →
  colon_seperated_pair token = Return pair →
  get_frames pair (update_commits_url user (Some project) branch)
    since max_pages per_page params = Return recs →
  recs ≠ [] →
  (∀ d, d ∈ recs → dict_get "commit" d = None) →
  update user (Some project) auth since max_pages per_page data_home branch params w
    = (Raise (KeyError "commit"), w).
Proof.
  intros Htoken Hpair Hrecs Hne Hnone.
  erewrite update_commits_fetched by eassumption.
  assert (getitem (DataFrame_of recs) "commit" = Raise (KeyError "commit")) as Hg.
  { unfold getitem. destruct (index_of "commit" _) eqn:E; [|done]. exfalso.
    assert ("commit" ∈ columns (DataFrame_of recs)) as Hin
      by (apply index_of_elem; by eexists).
    apply DataFrame_of_columns in Hin as (d & Hd & Hsome).
    rewrite (Hnone d Hd) in Hsome. by destruct Hsome. }
  unfold bind at 1, lift at 1, update_commits_dates. by rewrite Hg.
Qed.

(** X15: the updater writes one file at most.  When making a directory does
    not touch the files, the files after an update, however it ends, are
    those before it, or those with the cache file replaced. *)
Theorem update_commits_one_file user project auth since max_pages per_page
    data_home branch params r w w' :
  (∀ name w1 r1 w2, os_makedirs name w1 = (r1, w2) → files w2 = files w1) →
  update user project auth since max_pages per_page data_home branch params w = (r, w') →
  files w' = files w ∨
  ∃ df, files w' =
        <[filename user project data_home branch := Stored DATETIME_FORMAT df]> (files w).
Proof.
  intros Hmk. unfold update_commits.
  unfold bind at 1, lift at 1.
  destruct (match auth with Some a => Return a | None => get_API_token auth end)
    as [token|]; [|intros [= _ <-]; by left].
  unfold bind at 1, lift at 1.
  destruct (colon_seperated_pair token) as [pair|]; [|intros [= _ <-]; by left].
  unfold bind at 1, lift at 1.
  destruct (get_frames _ _ _ _ _ _) as [recs|]; [|intros [= _ <-]; by left].
  destruct (len (DataFrame_of recs) =? 0).
  { unfold bind, print, ret. intros [= _ <-]. by left. }
  unfold bind at 1, lift at 1.
  destruct (update_commits_dates _ _) as [raw|]; [|intros [= _ <-]; by left].
  unfold bind at 1.
  destruct (load_commits _ _ _ _ _ _ _ _ w) as [old w1] eqn:Hload.
  apply load_commits_world in Hload as [Hf1 _].
  destruct old as [old|]; [|intros [= _ <-]; by left].
  unfold bind at 1, lift at 1.
  destruct (update_commits_merge raw old) as [merged|]; [|intros [= _ <-]; by left].
  unfold bind at 1, try_except.
  destruct (os_makedirs _ w1) as [mk w2] eqn:Hmake.
  apply Hmk in Hmake.
  assert (∀ w3, files w3 = files w →
            (to_json merged (filename user project data_home branch) DATETIME_FORMAT ;;;
             load user project data_home false branch) w3 = (r, w') →
            files w' = files w ∨
            ∃ df, files w' =
                  <[filename user project data_home branch := Stored DATETIME_FORMAT df]>
                    (files w)) as Hwrite.
  { intros w3 Hf3. unfold bind at 1, to_json. case_bool_decide.
    - intros [Hf _]%load_commits_world. right. exists merged.
      rewrite Hf. cbn. by rewrite Hf3.
    - intros [= _ <-]. by left. }
  destruct mk as [[]|e].
  - apply Hwrite. congruence.
  - destruct e; try (intros [= _ <-]; left; congruence).
    unfold ret. apply Hwrite. congruence.
Qed.

(** X16: an update that fetched records and returned hands back what the
    reader finds afterwards: reading the cache in the world the update left
    gives the value the update returned. *)
Theorem update_commits_returns_reload user project auth since max_pages per_page
    data_home branch params token pair recs res w w' :
  (match auth with None => get_API_token None | Some a => Return a end) = Return token →
  colon_seperated_pair token = Return pair →
  get_frames pair (update_commits_url user project branch) since max_pages per_page params
    = Return recs →
  recs ≠ [] →
  update user project auth since max_pages per_page data_home branch params w
    = (Return res, w') →
  (load user project data_home false branch w').1 = Return res.
Proof.
  intros Htoken Hpair Hrecs Hne.
  erewrite update_commits_fetched by eassumption.
  unfold bind at 1, lift at 1.
  destruct (update_commits_dates _ _) as [raw|]; [|done].
  unfold bind at 1.
  destruct (load_commits _ _ _ _ _ _ _ _ w) as [[old|] w1]; [|done].
  unfold bind at 1, lift at 1.
  destruct (update_commits_merge raw old) as [merged|]; [|done].
  assert (∀ w3, (to_json merged (filename user project data_home branch) DATETIME_FORMAT ;;;
                 load user project data_home false branch) w3 = (Return res, w') →
                (load user project data_home false branch w').1 = Return res) as Hwrite.
  { intros w3. unfold bind at 1, to_json. case_bool_decide; [|done].
    intros Hload. pose proof (load_commits_world _ _ _ _ _ _ _ _ _ _ _ Hload) as [Hf _].
    rewrite (load_commits_files_only _ _ _ _ _ _ _ _ _ _ Hf). by rewrite Hload. }
  unfold bind at 1, try_except.
  destruct (os_makedirs _ w1) as [[[]|e] w2]; [apply Hwrite|].
  destruct e; try done. apply Hwrite.
Qed.

End UpdaterMore.

(** ** The properties at work in the concrete setting *)

Section Instances.
Import Demo.

Lemma cache_location_shapes_witness :
  load_commits_filepath get_data_home "acme" (Some "widget") None (Some "dev") =
    update_commits_filename get_data_home "acme" (Some "widget") None (Some "dev") ∧
  update_commits_filename get_data_home "acme" (Some "widget") None (Some "dev") =
    "/home/acme/watchtower_data/projects/acme/widget/branches/dev/commits.json".
Proof.
  apply (cache_location_shapes get_data_home "acme" (Some "widget") None (Some "dev"));
    [reflexivity | reflexivity | intros p [= <-]; reflexivity
    | intros b [= <-]; reflexivity].
Defined.

Lemma update_commits_no_activity_witness :
  Demo.update_commits [] makedirs "acme" None None None 100 100 None None []
    (cached (Stored DATETIME_FORMAT old_cache)) =
  (Return NoData,
   {| files := files (cached (Stored DATETIME_FORMAT old_cache));
      dirs := dirs (cached (Stored DATETIME_FORMAT old_cache));
      stdout := ["No activity found"] |}).
Proof.
  unfold Demo.update_commits.
  eapply update_commits_no_activity; reflexivity.
Defined.

Lemma update_commits_makedirs_oserror_witness :
  ∃ merged,
    Demo.update_commits [event "push-1" (VStr "2017-01-02T00:00:00Z")] makedirs_denied
      "acme" None None None 100 100 None None []
      (cached (Stored DATETIME_FORMAT old_cache)) =
    (to_json merged activity_json DATETIME_FORMAT ;;;
     Demo.load_commits "acme" None None false None)
      (cached (Stored DATETIME_FORMAT old_cache)) ∧
    rows merged =
      [[VStr "push-1"; VStr "2017-01-02T00:00:00Z"];
       [VStr "cached"; VTime {| instant := 1483228800; tz := Some US_Pacific |}]].
Proof.
  eexists. split.
  - unfold Demo.update_commits.
    eapply update_commits_makedirs_oserror with (errno := 13);
      [reflexivity | reflexivity | reflexivity | done | reflexivity
      | reflexivity | reflexivity | reflexivity].
  - reflexivity.
Defined.





Lemma load_commits_no_data_witness :
  Demo.load_commits "acme" None None false None (cached (Stored DATETIME_FORMAT no_rows)) =
  (Return NoData,
   {| files := files (cached (Stored DATETIME_FORMAT no_rows));
      dirs := dirs (cached (Stored DATETIME_FORMAT no_rows));
      stdout := ["No commits for this project"] |}).
Proof.
  unfold Demo.load_commits.
  apply (load_commits_no_data get_data_home to_datetime read_back
           "acme" None None false None "No commits for this project"
           (cached (Stored DATETIME_FORMAT no_rows))).
  apply (zero_records to_datetime read_back _ _ DATETIME_FORMAT no_rows no_rows);
    [reflexivity | reflexivity | | reflexivity].
  apply list_elem_of_further, list_elem_of_here.
Defined.

(** Against C4 as stated: a cache whose records have no "date" makes the
    reader raise [KeyError]. *)
Lemma load_commits_missing_date_raises :
  Demo.load_commits "acme" None None false None (cached (Stored DATETIME_FORMAT no_date)) =
  (Raise (KeyError "date"), cached (Stored DATETIME_FORMAT no_date)).
Proof. reflexivity. Qed.

Lemma load_commits_present_witness :
  Demo.load_commits "acme" None None true None (cached (Stored DATETIME_FORMAT old_cache)) =
  (Return (Handler
             {| pc_user := "acme"; pc_project := None;
                pc_commits :=
                  {| columns := ["id"; "date"];
                     rows := [[VStr "cached";
                               VTime {| instant := 1483228800;
                                        tz := Some US_Pacific |}]] |} |}),
   cached (Stored DATETIME_FORMAT old_cache)).
Proof.
  destruct (load_commits_present get_data_home to_datetime read_back
              "acme" None None true None DATETIME_FORMAT old_cache old_cache
              [VStr "2017-01-01T00:00:00Z"] [{| instant := 1483228800; tz := None |}]
              (cached (Stored DATETIME_FORMAT old_cache)))
    as (commits & _ & _ & Hset & _ & Hload);
    [reflexivity | reflexivity | done | reflexivity | reflexivity
    | by repeat constructor |].
  injection Hset as <-. exact Hload.
Defined.

Lemma update_commits_dates_canonical_witness :
  ∃ raw,
    update_commits_dates (Some "widget")
      (Pd.DataFrame_of [commit "1a2b3c" (VStr "2017-01-03T00:00:00Z")]) = Return raw ∧
    "date" ∈ columns raw ∧
    Pd.getitem raw "date" = Return [VStr "2017-01-03T00:00:00Z"] ∧
    (Some "widget" = None →
     ("created_at" ∉ columns raw) ∧
     rows raw = rows (Pd.DataFrame_of [commit "1a2b3c" (VStr "2017-01-03T00:00:00Z")])).
Proof.
  apply (update_commits_dates_canonical (Some "widget")
           [commit "1a2b3c" (VStr "2017-01-03T00:00:00Z")]); [done|].
  intros d ->%list_elem_of_singleton. by eexists.
Defined.

Lemma find_word_in_string_iff_witness :
  Demo.find_word_in_string (Text.of_string "Updated the DOCS")
    (QList [Text.of_string "foo"; Text.of_string "Doc"]) = true ↔
  ∃ word, word ∈ [Text.of_string "foo"; Text.of_string "Doc"] ∧
          occurs_ci word (Text.of_string "Updated the DOCS").
Proof.
  apply (proj1 (proj2 (find_word_in_string_iff tolower_full is_cased is_case_ignorable))
           (Text.of_string "Updated the DOCS")
           (QList [Text.of_string "foo"; Text.of_string "Doc"]));
    unfold is_ascii; repeat constructor.
Defined.

(** Against C9 as stated: in the text "ΑΣΑ" the word "ΑΣ" occurs as it is
    written, yet the matcher answers false: the sigma that ends the word is
    lowered to the final sigma, the sigma inside the text is not. *)
Lemma find_word_in_string_final_sigma :
  let text := [913; 931; 913]%N in
  let word := [913; 931]%N in
  text = word ++ [913%N] ∧
  occurs_ci word text ∧
  Demo.find_word_in_string text (QList [word]) = false.
Proof.
  intros text word. split; [reflexivity|]. split; [|reflexivity].
  exists [], word, [913%N]. split; [reflexivity|].
  repeat constructor.
Qed.

End Instances.
(** ** The further properties at work *)

Section MoreInstances.
Import Demo.

Lemma find_word_in_string_same_members_witness :
  Demo.find_word_in_string (Text.of_string "Updated the docs")
    (QList [Text.of_string "doc"; Text.of_string "readme"]) =
  Demo.find_word_in_string (Text.of_string "Updated the docs")
    (QList [Text.of_string "readme"; Text.of_string "doc"; Text.of_string "doc"]).
Proof.
  apply (find_word_in_string_same_members tolower_full is_cased is_case_ignorable
           (Text.of_string "Updated the docs")
           [Text.of_string "doc"; Text.of_string "readme"]
           [Text.of_string "readme"; Text.of_string "doc"; Text.of_string "doc"]).
  intros word. rewrite !elem_of_cons. tauto.
Defined.

Lemma find_word_in_string_empty_word_witness :
  Demo.find_word_in_string [] (QList [Text.of_string "doc"; []]) = true.
Proof.
  apply (find_word_in_string_empty_word tolower_full is_cased is_case_ignorable
           [] (QList [Text.of_string "doc"; []])).
  apply list_elem_of_further, list_elem_of_here.
Defined.

Lemma cache_location_injective_witness :
  "acme" = "acme" ∧ Some "widget" = Some "widget" ∧
  (Some "widget" ≠ None → Some "dev" = Some "dev").
Proof.
  apply (cache_location_injective get_data_home None "acme" "acme"
           (Some "widget") (Some "widget") (Some "dev") (Some "dev"));
    [reflexivity | reflexivity | reflexivity
    | intros p [[= <-]|[= <-]]; reflexivity
    | intros b [[= <-]|[= <-]]; reflexivity
    | reflexivity].
Defined.

Lemma update_commits_directory_witness :
  dirname (update_commits_filename get_data_home "acme" (Some "widget") None (Some "dev"))
  = "/home/acme/watchtower_data/projects/acme/widget/branches/dev".
Proof.
  apply (update_commits_directory get_data_home "acme" (Some "widget") None (Some "dev"));
    [reflexivity | reflexivity | intros p [= <-]; reflexivity
    | intros b [= <-]; reflexivity].
Defined.

Lemma cache_location_absolute_user_witness :
  update_commits_filename get_data_home "/etc" None None None =
    update_commits_filename (fun _ => "/srv/cache") "/etc" None None None ∧
  (@None string = None →
   update_commits_filename get_data_home "/etc" None None None = "/etc/activity.json").
Proof.
  apply (cache_location_absolute_user get_data_home (fun _ => "/srv/cache")
           "/etc" None None None None).
  reflexivity.
Defined.

Lemma load_commits_read_only_witness :
  (Demo.load_commits "acme" None None false None empty_world).2 = empty_world ∨
  ((Demo.load_commits "acme" None None false None empty_world).1 = Return NoData ∧
   ∃ msg, (Demo.load_commits "acme" None None false None empty_world).2 =
          {| files := files empty_world; dirs := dirs empty_world;
             stdout := stdout empty_world ++ [msg] |}).
Proof.
  apply (load_commits_read_only get_data_home to_datetime read_back
           "acme" None None false None _ empty_world _).
  reflexivity.
Defined.

Lemma load_commits_result_witness :
  ∃ commits idx,
    Commits {| columns := ["id"; "date"];
               rows := [[VStr "cached";
                         VTime {| instant := 1483228800; tz := Some US_Pacific |}]] |}
      = Commits commits ∧
    rows commits ≠ [] ∧
    Pd.getitem commits "date" = Return (VTime <$> idx) ∧
    length idx = length (rows commits) ∧
    Forall (fun t => tz t = Some US_Pacific) idx.
Proof.
  apply (load_commits_result get_data_home to_datetime read_back
           "acme" None None false None _
           (cached (Stored DATETIME_FORMAT old_cache))
           (cached (Stored DATETIME_FORMAT old_cache)));
    [reflexivity | done].
Defined.

Lemma load_commits_missing_column_witness :
  Demo.load_commits "acme" None None true None (cached (Stored DATETIME_FORMAT no_date))
  = (Raise (KeyError "date"), cached (Stored DATETIME_FORMAT no_date)).
Proof.
  apply (load_commits_missing_column get_data_home to_datetime read_back
           "acme" None None true None DATETIME_FORMAT no_date no_date);
    [reflexivity | reflexivity |].
  cbn. rewrite !not_elem_of_cons. repeat split; try done. apply not_elem_of_nil.
Defined.

Lemma load_commits_again_witness :
  (Demo.load_commits "acme" None None false None
     (Demo.load_commits "acme" None None false None (cached garbage)).2).1
  = Return NoData.
Proof.
  apply (load_commits_again get_data_home to_datetime read_back
           "acme" None None false None (Return NoData) (cached garbage)).
  reflexivity.
Defined.

Lemma update_commits_merge_sublist_witness :
  let fresh := [VStr "fresh"; VStr "2017-01-01T00:00:00Z"] in
  let again := [VStr "again"; VStr "2017-01-01T00:00:00Z"] in
  let old := [VStr "cached"; VTime {| instant := 1483228800; tz := Some US_Pacific |}] in
  let merged := {| columns := ["id"; "date"]; rows := [fresh; old] |} in
  (∀ c, c ∈ columns merged ↔ c ∈ ["id"; "date"] ∨ c ∈ ["id"; "date"]) ∧
  sublist (rows merged)
    ((Pd.reindex ["id"; "date"] (columns merged) <$> [fresh; again]) ++
     (Pd.reindex ["id"; "date"] (columns merged) <$> [old])).
Proof.
  intros fresh again old merged.
  exact (update_commits_merge_sublist
           {| columns := ["id"; "date"]; rows := [fresh; again] |}
           {| columns := ["id"; "date"]; rows := [old] |} merged eq_refl).
Defined.

Lemma update_commits_merge_covers_witness :
  let fresh := [VStr "fresh"; VStr "2017-01-01T00:00:00Z"] in
  let again := [VStr "again"; VStr "2017-01-01T00:00:00Z"] in
  let old := [VStr "cached"; VTime {| instant := 1483228800; tz := Some US_Pacific |}] in
  let merged := {| columns := ["id"; "date"]; rows := [fresh; old] |} in
  ∃ m, m ∈ rows merged ∧
       Pd.key_eqb (Pd.cell (columns merged) "date" m) (Pd.cell ["id"; "date"] "date" again)
         = true.
Proof.
  intros fresh again old merged.
  apply (update_commits_merge_covers
           {| columns := ["id"; "date"]; rows := [fresh; again] |}
           {| columns := ["id"; "date"]; rows := [old] |} merged eq_refl
           ["id"; "date"] again).
  left. split; [reflexivity | apply list_elem_of_further, list_elem_of_here].
Defined.

Lemma update_commits_fetch_error_witness :
  update_commits_offline "acme" None None None 100 100 None None []
    (cached (Stored DATETIME_FORMAT old_cache))
  = (Raise (Exception "connection refused"), cached (Stored DATETIME_FORMAT old_cache)).
Proof.
  unfold update_commits_offline.
  apply (update_commits_fetch_error get_data_home get_API_token DATETIME_FORMAT
           colon_seperated_pair pager_down to_datetime read_back makedirs).
  reflexivity.
Defined.

Lemma update_commits_missing_commit_witness :
  Demo.update_commits same_second makedirs
    "acme" (Some "widget") None None 100 100 None None []
    (cached (Stored DATETIME_FORMAT old_cache))
  = (Raise (KeyError "commit"), cached (Stored DATETIME_FORMAT old_cache)).
Proof.
  unfold Demo.update_commits.
  eapply (update_commits_missing_commit get_data_home get_API_token DATETIME_FORMAT
            colon_seperated_pair (pager same_second) to_datetime read_back makedirs);
    [reflexivity | reflexivity | reflexivity | done |].
  intros d Hd. unfold same_second in Hd.
  apply elem_of_cons in Hd as [->|Hd]; [reflexivity|].
  apply list_elem_of_singleton in Hd as ->. reflexivity.
Defined.

Lemma makedirs_keeps_files name w1 r1 w2 :
  makedirs name w1 = (r1, w2) → files w2 = files w1.
Proof. unfold makedirs. case_bool_decide; by intros [= _ <-]. Defined.

Lemma update_commits_one_file_witness :
  let w := cached (Stored DATETIME_FORMAT old_cache) in
  let run := Demo.update_commits [fresh_event] makedirs
               "acme" None None None 100 100 None None [] w in
  files run.2 = files w ∨
  ∃ df, files run.2 =
        <[update_commits_filename get_data_home "acme" None None None
            := Stored DATETIME_FORMAT df]> (files w).
Proof.
  intros w run.
  apply (update_commits_one_file get_data_home get_API_token DATETIME_FORMAT
           colon_seperated_pair (pager [fresh_event]) to_datetime read_back makedirs
           "acme" None None None 100 100 None None [] run.1 w run.2
           makedirs_keeps_files).
  reflexivity.
Defined.

Lemma update_commits_returns_reload_witness :
  let run := Demo.update_commits [fresh_event] makedirs
               "acme" None None None 100 100 None None []
               (cached (Stored DATETIME_FORMAT old_cache)) in
  ∃ res, run.1 = Return res ∧
         (Demo.load_commits "acme" None None false None run.2).1 = Return res.
Proof.
  intros run. eexists. split; [reflexivity|].
  eapply (update_commits_returns_reload get_data_home get_API_token DATETIME_FORMAT
            colon_seperated_pair (pager [fresh_event]) to_datetime read_back makedirs
            "acme" None None None 100 100 None None [] _ _ [fresh_event] _
            (cached (Stored DATETIME_FORMAT old_cache)) run.2);
    [reflexivity | reflexivity | reflexivity | done |].
  refine (eq_trans (surjective_pairing _) (f_equal2 pair _ eq_refl)).
  reflexivity.
Defined.

End MoreInstances.
